(** * Chat.js: the chat component as a state machine

    The React component [Chat] of [frontend/src/components/Chat.js] keeps
    twelve [useState] cells and reacts to user events, to the settlement of
    the HTTP requests it issued, to timers and to the browser's speech
    events.  Every handler is embedded as the list of commands it executes
    in program order: the [set...] calls of its state cells and the calls
    it makes to the outside (axios, the speech APIs, [setTimeout]).  React
    applies the queued [set...] calls in order when the handler returns
    ([run]); an [async] handler is cut at its [await] into the part that
    runs at once and the part that resumes when the request settles. *)

From Stdlib Require Import ZArith NArith QArith.
From stdpp Require Import base list strings.

Open Scope Z_scope.

(** ** JavaScript strings *)

(** A string is a sequence of UTF-16 code units; [length] counts them,
    as the [length] property does. *)
Definition code_unit := N.
Definition jsstring := list code_unit.

(** A string literal of the source whose characters are all ASCII. *)
Definition lit (s : string) : jsstring :=
  map Ascii.N_of_ascii (String.list_ascii_of_string s).

(** WhiteSpace and LineTerminator of ECMAScript, the code units removed by
    [String.prototype.trim]. *)
Definition is_js_space (c : code_unit) : bool :=
  ((9 <=? c) && (c <=? 13))%N         (* TAB LF VT FF CR *)
  || (c =? 32)%N || (c =? 160)%N      (* SP NBSP *)
  || (c =? 5760)%N                    (* U+1680 *)
  || ((8192 <=? c) && (c <=? 8202))%N (* U+2000 .. U+200A *)
  || (c =? 8232)%N || (c =? 8233)%N   (* LS PS *)
  || (c =? 8239)%N || (c =? 8287)%N   (* U+202F U+205F *)
  || (c =? 12288)%N || (c =? 65279)%N (* U+3000 U+FEFF *).

Fixpoint trimStart (s : jsstring) : jsstring :=
  match s with
  | [] => []
  | c :: r => if is_js_space c then trimStart r else s
  end.

Definition trimEnd (s : jsstring) : jsstring := rev (trimStart (rev s)).

Definition trim (s : jsstring) : jsstring := trimEnd (trimStart s).

(** Truthiness of a string: only the empty string is falsy. *)
Definition truthy (s : jsstring) : bool :=
  match s with [] => false | _ => true end.

(** A property read off a JSON body is a string or is missing
    ([undefined]). *)
Definition jsfield := option jsstring.

(** [a || b] where [a] may be [null]/[undefined] or a string. *)
Definition or_else (a : jsfield) (b : jsstring) : jsstring :=
  match a with
  | Some s => if truthy s then s else b
  | None => b
  end.

(** Conversion to string inside a template literal. *)
Definition to_string (v : jsfield) : jsstring :=
  match v with
  | Some s => s
  | None => lit "undefined"
  end.

(** ** Messages and component state *)

Inductive Role := user_role | assistant.

(** A number that is stored and displayed, never computed with. *)
Definition jsnumber := Q.

(** [timestamp] stands for the instant whose ISO rendering the source
    stores; an absent [duration] or [error] property is [None]/[false]. *)
Record Message := mkMessage {
  id : Z;
  role : Role;
  content : jsfield;
  timestamp : Z;
  duration : option jsnumber;
  error : bool
}.

(** A browser [File] and an entry of the backend's file list, each
    identified by a name. *)
Definition File := jsstring.
Definition FileInfo := jsstring.

Record SpeechRecognition := mkRecognition {
  continuous : bool;
  interimResults : bool;
  lang : jsstring
}.

(** [window.speechSynthesis], a singleton. *)
Inductive SpeechSynthesis := speechSynthesis.

Record State := mkState {
  messages : list Message;
  inputMessage : jsstring;
  isLoading : bool;
  isTyping : bool;
  showSuggestions : bool;
  isListening : bool;
  isSpeaking : bool;
  recognition : option SpeechRecognition;
  synthesis : option SpeechSynthesis;
  uploadedFiles : list FileInfo;
  isDragging : bool;
  isUploading : bool
}.

(** The [useState] initial values. *)
Definition initial_state : State :=
  {| messages := []; inputMessage := []; isLoading := false;
     isTyping := false; showSuggestions := true; isListening := false;
     isSpeaking := false; recognition := None; synthesis := None;
     uploadedFiles := []; isDragging := false; isUploading := false |}.

(** ** Commands *)

(** The readings of the clock one run of a handler makes: [Date.now()]
    and [new Date()] in its straight-line code or [try] block, and the
    same two again where its [catch] block builds the error message. *)
Record Clock := mkClock {
  date_now : Z;
  new_date : Z;
  catch_date_now : Z;
  catch_new_date : Z
}.

Inductive HttpRequest :=
| Get (url : string)
| PostJson (url : string) (message : jsstring) (stream : bool)
| PostForm (url : string) (form : list (string * File)) (contentType : string).

Definition endpoint (r : HttpRequest) : string :=
  match r with
  | Get u => u
  | PostJson u _ _ => u
  | PostForm u _ _ => u
  end.

Record Utterance := mkUtterance {
  text : jsfield;
  rate : Q;
  pitch : Q;
  volume : Q
}.

(** Who is suspended on a request.  [sendMessage_k] keeps the render the
    handler was created in: its [speakResponse] reads that render's
    [synthesis] and [isSpeaking]. *)
Inductive Caller := FromMount | FromHandleFileUpload.

Inductive Cont :=
| sendMessage_k (render : State)
| handleFileUpload_k
| loadUploadedFiles_k (caller : Caller).

Inductive Cmd :=
| SetMessages (l : list Message)
| AppendMessage (m : Message)          (* setMessages(prev => [...prev, m]) *)
| SetInputMessage (s : jsstring)
| SetIsLoading (b : bool)
| SetIsTyping (b : bool)
| SetShowSuggestions (b : bool)
| SetIsListening (b : bool)
| SetIsSpeaking (b : bool)
| SetRecognition (r : SpeechRecognition)
| SetSynthesis (y : SpeechSynthesis)
| SetUploadedFiles (l : list FileInfo)
| SetIsDragging (b : bool)
| SetIsUploading (b : bool)
| Await (req : HttpRequest) (k : Cont)  (* await axios.get / axios.post *)
| SetTimeout (render : State) (arg : jsfield) (ms : Z)
                                        (* setTimeout(() => speakResponse(arg), ms) *)
| PreventDefault
| ResetFileInput                        (* e.target.value = '' *)
| RecognitionStart
| RecognitionStop
| SynthesisCancel
| SynthesisSpeak (u : Utterance)
| ConsoleError.

(** One setter per state cell: the cell is replaced, the others kept. *)
Definition with_messages (v : list Message) (s : State) : State :=
  mkState
    v (inputMessage s) (isLoading s) (isTyping s) (showSuggestions s)
    (isListening s) (isSpeaking s) (recognition s) (synthesis s)
    (uploadedFiles s) (isDragging s) (isUploading s).

Definition with_inputMessage (v : jsstring) (s : State) : State :=
  mkState
    (messages s) v (isLoading s) (isTyping s) (showSuggestions s)
    (isListening s) (isSpeaking s) (recognition s) (synthesis s)
    (uploadedFiles s) (isDragging s) (isUploading s).

Definition with_isLoading (v : bool) (s : State) : State :=
  mkState
    (messages s) (inputMessage s) v (isTyping s) (showSuggestions s)
    (isListening s) (isSpeaking s) (recognition s) (synthesis s)
    (uploadedFiles s) (isDragging s) (isUploading s).

Definition with_isTyping (v : bool) (s : State) : State :=
  mkState
    (messages s) (inputMessage s) (isLoading s) v (showSuggestions s)
    (isListening s) (isSpeaking s) (recognition s) (synthesis s)
    (uploadedFiles s) (isDragging s) (isUploading s).

Definition with_showSuggestions (v : bool) (s : State) : State :=
  mkState
    (messages s) (inputMessage s) (isLoading s) (isTyping s) v
    (isListening s) (isSpeaking s) (recognition s) (synthesis s)
    (uploadedFiles s) (isDragging s) (isUploading s).

Definition with_isListening (v : bool) (s : State) : State :=
  mkState
    (messages s) (inputMessage s) (isLoading s) (isTyping s)
    (showSuggestions s) v (isSpeaking s) (recognition s) (synthesis s)
    (uploadedFiles s) (isDragging s) (isUploading s).

Definition with_isSpeaking (v : bool) (s : State) : State :=
  mkState
    (messages s) (inputMessage s) (isLoading s) (isTyping s)
    (showSuggestions s) (isListening s) v (recognition s) (synthesis s)
    (uploadedFiles s) (isDragging s) (isUploading s).

Definition with_recognition (v : option SpeechRecognition) (s : State) : State :=
  mkState
    (messages s) (inputMessage s) (isLoading s) (isTyping s)
    (showSuggestions s) (isListening s) (isSpeaking s) v (synthesis s)
    (uploadedFiles s) (isDragging s) (isUploading s).

Definition with_synthesis (v : option SpeechSynthesis) (s : State) : State :=
  mkState
    (messages s) (inputMessage s) (isLoading s) (isTyping s)
    (showSuggestions s) (isListening s) (isSpeaking s) (recognition s) v
    (uploadedFiles s) (isDragging s) (isUploading s).

Definition with_uploadedFiles (v : list FileInfo) (s : State) : State :=
  mkState
    (messages s) (inputMessage s) (isLoading s) (isTyping s)
    (showSuggestions s) (isListening s) (isSpeaking s) (recognition s)
    (synthesis s) v (isDragging s) (isUploading s).

Definition with_isDragging (v : bool) (s : State) : State :=
  mkState
    (messages s) (inputMessage s) (isLoading s) (isTyping s)
    (showSuggestions s) (isListening s) (isSpeaking s) (recognition s)
    (synthesis s) (uploadedFiles s) v (isUploading s).

Definition with_isUploading (v : bool) (s : State) : State :=
  mkState
    (messages s) (inputMessage s) (isLoading s) (isTyping s)
    (showSuggestions s) (isListening s) (isSpeaking s) (recognition s)
    (synthesis s) (uploadedFiles s) (isDragging s) v.

(** What a command does to the state cells; calls to the outside leave
    them as they are. *)
Definition apply_cmd (s : State) (c : Cmd) : State :=
  match c with
  | SetMessages l => with_messages l s
  | AppendMessage m => with_messages (messages s ++ [m]) s
  | SetInputMessage v => with_inputMessage v s
  | SetIsLoading b => with_isLoading b s
  | SetIsTyping b => with_isTyping b s
  | SetShowSuggestions b => with_showSuggestions b s
  | SetIsListening b => with_isListening b s
  | SetIsSpeaking b => with_isSpeaking b s
  | SetRecognition r => with_recognition (Some r) s
  | SetSynthesis y => with_synthesis (Some y) s
  | SetUploadedFiles l => with_uploadedFiles l s
  | SetIsDragging b => with_isDragging b s
  | SetIsUploading b => with_isUploading b s
  | _ => s
  end.

(** The state after a handler's queued updates were applied in order. *)
Definition run (s : State) (t : list Cmd) : State := fold_left apply_cmd t s.

(** The HTTP requests a trace issues. *)
Definition requests (t : list Cmd) : list HttpRequest :=
  omap (fun c => match c with Await r _ => Some r | _ => None end) t.

(** ** Responses and exceptions *)

(** The JSON body of a response, [response.data]; every property the
    component reads may be missing. *)
Record Data := mkData {
  data_content : jsfield;
  data_duration : option jsnumber;
  data_message : jsfield;
  data_files : option (list FileInfo)
}.

(** How an awaited request settles: the promise resolves with a body or
    rejects. *)
Inductive Outcome := Resolved (data : Data) | Rejected.

(** The commands a block executed, and whether it ended by throwing. *)
Inductive Completion := Normal (t : list Cmd) | Throw (t : list Cmd).

Definition try_catch_finally (body : Completion) (handler fin : list Cmd)
  : list Cmd :=
  match body with
  | Normal t => t ++ fin
  | Throw t => t ++ handler ++ fin
  end.

(** ** The handlers *)

Record User := mkUser { username : jsfield }.

Record Env := mkEnv {
  has_recognition : bool;   (* 'SpeechRecognition' in window, or the webkit one *)
  has_synthesis : bool      (* 'speechSynthesis' in window *)
}.

(** First effect: the speech objects. *)
Definition speech_effect (env : Env) : list Cmd :=
  (if has_recognition env
   then [SetRecognition (mkRecognition false false (lit "en-US"))]
   else [])
  ++ (if has_synthesis env then [SetSynthesis speechSynthesis] else []).

(** [user?.username] *)
Definition username_of (u : option User) : jsfield :=
  match u with Some x => username x | None => None end.

Definition welcome_text (u : option User) : jsstring :=
  lit "Hey " ++ to_string (username_of u) ++ lit "! "
  ++ [55357; 56395]%N   (* U+1F44B as a surrogate pair *)
  ++ lit " I'm your AI assistant. I can help with calculations, questions, web searches, and I'll remember our conversations. You can type or use voice! What's on your mind?".

(** Effect on [user]: the history is replaced by the welcome message. *)
Definition welcome_effect (u : option User) (c : Clock) : list Cmd :=
  [SetMessages
     [mkMessage 1 assistant (Some (welcome_text u)) (new_date c) None false]].

Definition loadUploadedFiles (caller : Caller) : list Cmd :=
  [Await (Get "/files") (loadUploadedFiles_k caller)].

(** [loadUploadedFiles] after its [await]; a caller that awaited it goes
    on with its own [finally]. *)
Definition loadUploadedFiles_resume (caller : Caller) (o : Outcome)
  : list Cmd :=
  match o with
  | Resolved data => [SetUploadedFiles (default [] (data_files data))]
  | Rejected => [ConsoleError]
  end
  ++ match caller with
     | FromMount => []
     | FromHandleFileUpload => [SetIsUploading false]
     end.

Definition handleFileUpload (files : option (list File)) : list Cmd :=
  match files with
  | None => []
  | Some fs =>
      if (length fs =? 0)%nat then []
      else [SetIsUploading true;
            Await (PostForm "/upload" (map (fun f => ("files"%string, f)) fs)
                     "multipart/form-data")
                  handleFileUpload_k]
  end.

(** Built in the [catch] block, from the clock as read there. *)
Definition upload_errorMessage (c : Clock) : Message :=
  mkMessage (catch_date_now c) assistant
    (Some (lit "File upload failed. Please try again."))
    (catch_new_date c) None true.

(** [handleFileUpload] after [await axios.post('/upload', ...)].  On
    success it suspends again inside [loadUploadedFiles]; its [finally]
    then runs in [loadUploadedFiles_resume]. *)
Definition handleFileUpload_resume (o : Outcome) (c : Clock) : list Cmd :=
  match o with
  | Resolved data =>
      let successMessage :=
        mkMessage (date_now c) assistant
          (Some (to_string (data_message data) ++ lit ". Kya puchna hai?"))
          (new_date c) None false in
      AppendMessage successMessage :: loadUploadedFiles FromHandleFileUpload
  | Rejected =>
      try_catch_finally (Throw [])
        [AppendMessage (upload_errorMessage c)]
        [SetIsUploading false]
  end.

Definition handleDragOver : list Cmd := [PreventDefault; SetIsDragging true].

Definition handleDragLeave : list Cmd := [PreventDefault; SetIsDragging false].

Definition handleDrop (files : option (list File)) : list Cmd :=
  [PreventDefault; SetIsDragging false] ++ handleFileUpload files.

Definition handleFileInputChange (files : option (list File)) : list Cmd :=
  handleFileUpload files ++ [ResetFileInput].

Definition startListening (s : State) : list Cmd :=
  match recognition s with
  | Some _ =>
      if negb (isListening s) then [SetIsListening true; RecognitionStart]
      else []
  | None => []
  end.

Definition stopListening (s : State) : list Cmd :=
  match recognition s with
  | Some _ =>
      if isListening s then [RecognitionStop; SetIsListening false] else []
  | None => []
  end.

Definition speakResponse (s : State) (arg : jsfield) : list Cmd :=
  match synthesis s with
  | Some _ =>
      if negb (isSpeaking s)
      then [SynthesisCancel;
            SynthesisSpeak (mkUtterance arg (9 # 10)%Q 1%Q (8 # 10)%Q)]
      else []
  | None => []
  end.

Definition stopSpeaking (s : State) : list Cmd :=
  match synthesis s with
  | Some _ => [SynthesisCancel; SetIsSpeaking false]
  | None => []
  end.

(** [sendMessage] up to its [await].  [messageText] is [None] for the
    default [null]. *)
Definition sendMessage (s : State) (messageText : jsfield) (c : Clock)
  : list Cmd :=
  let message := or_else messageText (trim (inputMessage s)) in
  if negb (truthy message) || isLoading s then []
  else
    let userMessage :=
      mkMessage (date_now c) user_role (Some message) (new_date c) None false in
    [AppendMessage userMessage;
     SetInputMessage [];
     SetIsLoading true;
     SetIsTyping true;
     SetShowSuggestions false;
     Await (PostJson "/chat" message false) (sendMessage_k s)].

(** Built in the [catch] block, from the clock as read there. *)
Definition chat_errorMessage (c : Clock) : Message :=
  mkMessage (catch_date_now c + 1) assistant
    (Some (lit "Sorry, something went wrong. Please try again!"))
    (catch_new_date c) None true.

(** The [try] block of [sendMessage] after the request settled.  Reading
    [length] of a missing [content] throws, after the assistant message
    was built from the [try] block's clock readings and queued; the
    [catch] block then reads the clock again. *)
Definition sendMessage_try (render : State) (o : Outcome) (c : Clock)
  : Completion :=
  match o with
  | Rejected => Throw []
  | Resolved data =>
      let assistantMessage :=
        mkMessage (date_now c + 1) assistant (data_content data)
          (new_date c) (data_duration data) false in
      match data_content data with
      | None => Throw [AppendMessage assistantMessage]
      | Some reply =>
          Normal (AppendMessage assistantMessage ::
                  if (length reply <? 200)%nat
                  then [SetTimeout render (data_content data) 500]
                  else [])
      end
  end.

Definition sendMessage_resume (render : State) (o : Outcome) (c : Clock)
  : list Cmd :=
  try_catch_finally (sendMessage_try render o c)
    [AppendMessage (chat_errorMessage c)]
    [SetIsLoading false; SetIsTyping false].

Definition handleKeyDown (s : State) (key : jsstring) (shiftKey : bool)
  (c : Clock) : list Cmd :=
  if bool_decide (key = lit "Enter") && negb shiftKey
  then PreventDefault :: sendMessage s None c
  else [].

(** Where a settled request resumes. *)
Definition resume (k : Cont) (o : Outcome) (c : Clock) : list Cmd :=
  match k with
  | sendMessage_k render => sendMessage_resume render o c
  | handleFileUpload_k => handleFileUpload_resume o c
  | loadUploadedFiles_k caller => loadUploadedFiles_resume caller o
  end.

(** ** The mounted component *)

(** What is outstanding: a request with the handler suspended on it, a
    timer, an utterance handed to the synthesizer. *)
Inductive Task :=
| Pending (req : HttpRequest) (k : Cont)
| Timer (render : State) (arg : jsfield) (ms : Z)
| Speech (u : Utterance).

Definition spawn_cmd (c : Cmd) : option Task :=
  match c with
  | Await req k => Some (Pending req k)
  | SetTimeout render arg ms => Some (Timer render arg ms)
  | SynthesisSpeak u => Some (Speech u)
  | _ => None
  end.

Definition spawn (t : list Cmd) : list Task := omap spawn_cmd t.

Record Component := mkComponent { state : State; tasks : list Task }.

Inductive Event :=
| ClickSend (c : Clock)                      (* onClick={() => sendMessage()} *)
| ClickSuggestion (suggestion : jsstring) (c : Clock)
| KeyDown (key : jsstring) (shiftKey : bool) (c : Clock)
| ChangeInput (value : jsstring)             (* textarea onChange *)
| DragOver
| DragLeave
| Drop (files : option (list File))
| FileInputChange (files : option (list File))
| ClickMic                     (* isListening ? stopListening : startListening *)
| ClickSpeak (arg : jsfield)                 (* a message's Speak button *)
| ClickStop                                  (* onClick={stopSpeaking} *)
| UserChanged (u : option User) (c : Clock)  (* the effect on [user] *)
| Settled (i : nat) (o : Outcome) (c : Clock)
| TimerFired (i : nat)
| RecognitionResult (transcript : jsstring)
| RecognitionError
| RecognitionEnd
| UtteranceStart (i : nat)
| UtteranceEnd (i : nat)
| UtteranceError (i : nat).

(** The handler's commands take effect: the state cells are updated and
    what the handler started joins the tasks kept. *)
Definition dispatch (c : Component) (t : list Cmd) (keep : list Task)
  : Component :=
  mkComponent (run (state c) t) (keep ++ spawn t).

(** The handler a user event is wired to, run in the current render.
    The [disabled] attributes of the buttons only remove some of these
    events; every handler guards itself. *)
Definition on_user_event (s : State) (e : Event) : option (list Cmd) :=
  match e with
  | ClickSend c => Some (sendMessage s None c)
  | ClickSuggestion suggestion c => Some (sendMessage s (Some suggestion) c)
  | KeyDown key shiftKey c => Some (handleKeyDown s key shiftKey c)
  | ChangeInput value => Some [SetInputMessage value]
  | DragOver => Some handleDragOver
  | DragLeave => Some handleDragLeave
  | Drop files => Some (handleDrop files)
  | FileInputChange files => Some (handleFileInputChange files)
  | ClickMic => Some (if isListening s then stopListening s else startListening s)
  | ClickSpeak arg => Some (speakResponse s arg)
  | ClickStop => Some (stopSpeaking s)
  | UserChanged u c => Some (welcome_effect u c)
  | _ => None
  end.

(** The callbacks installed on the recognition instance. *)
Definition on_recognition_event (e : Event) : option (list Cmd) :=
  match e with
  | RecognitionResult transcript =>
      Some [SetInputMessage transcript; SetIsListening false]
  | RecognitionError => Some [SetIsListening false]
  | RecognitionEnd => Some [SetIsListening false]
  | _ => None
  end.

(** One event: the component after it and the commands executed, or
    [None] when the event cannot occur (no such task, no recognition
    instance). *)
Definition step (c : Component) (e : Event) : option (Component * list Cmd) :=
  match e with
  | Settled i o clk =>
      match tasks c !! i with
      | Some (Pending _ k) =>
          let t := resume k o clk in
          Some (dispatch c t (delete i (tasks c)), t)
      | _ => None
      end
  | TimerFired i =>
      match tasks c !! i with
      | Some (Timer render arg _) =>
          let t := speakResponse render arg in
          Some (dispatch c t (delete i (tasks c)), t)
      | _ => None
      end
  | UtteranceStart i =>
      match tasks c !! i with
      | Some (Speech _) =>
          let t := [SetIsSpeaking true] in
          Some (dispatch c t (tasks c), t)
      | _ => None
      end
  | UtteranceEnd i | UtteranceError i =>
      match tasks c !! i with
      | Some (Speech _) =>
          let t := [SetIsSpeaking false] in
          Some (dispatch c t (delete i (tasks c)), t)
      | _ => None
      end
  | RecognitionResult _ | RecognitionError | RecognitionEnd =>
      match recognition (state c), on_recognition_event e with
      | Some _, Some t => Some (dispatch c t (tasks c), t)
      | _, _ => None
      end
  | _ =>
      match on_user_event (state c) e with
      | Some t => Some (dispatch c t (tasks c), t)
      | None => None
      end
  end.

(** The component once its mount effects ran, in source order: the speech
    objects, the welcome message, the first load of the file list. *)
Definition mount_effects (env : Env) (u : option User) (c : Clock)
  : list Cmd :=
  speech_effect env ++ welcome_effect u c ++ loadUploadedFiles FromMount.

Definition mount (env : Env) (u : option User) (c : Clock) : Component :=
  dispatch (mkComponent initial_state []) (mount_effects env u c) [].

(** The states from the mount effects on. *)
Inductive reachable (env : Env) : Component -> Prop :=
| reach_mount u c : reachable env (mount env u c)
| reach_step c e c' t :
    reachable env c -> step c e = Some (c', t) -> reachable env c'.

(** The first committed render: the [useState] initial values and
    nothing outstanding.  React runs the mount effects before it handles
    any event, so [mount] is what follows it. *)
Definition first_render : Component := mkComponent initial_state [].

(** Every state the component is rendered in: the first render, and the
    states from the mount effects on. *)
Inductive rendered (env : Env) : Component -> Prop :=
| rendered_first : rendered env first_render
| rendered_later c : reachable env c -> rendered env c.

(** A chat request is in flight: some task is [sendMessage] suspended on
    its POST. *)
Definition is_chat_task (t : Task) : bool :=
  match t with Pending _ (sendMessage_k _) => true | _ => false end.

Definition count_chat (l : list Task) : nat :=
  length (List.filter is_chat_task l).

Definition chat_in_flight (c : Component) : nat := count_chat (tasks c).

(** No chat request is outstanding. *)
Definition quiescent (c : Component) : Prop := chat_in_flight c = 0%nat.

(** ** Requests issued *)

(** The component issues the request on mounting, or in a step from a
    state it can reach. *)
Inductive issues (r : HttpRequest) : Prop :=
| issues_on_mount env u c :
    In r (requests (mount_effects env u c)) -> issues r
| issues_on_event env c e c' t :
    reachable env c -> step c e = Some (c', t) -> In r (requests t) ->
    issues r.

Definition known_endpoint (r : HttpRequest) : Prop :=
  endpoint r = "/chat" \/ endpoint r = "/upload" \/ endpoint r = "/files".

(** ** Invariant of the reachable states *)

(** A task agrees with the state: a render kept in a closure has the
    speech synthesizer of the current state, and an utterance exists only
    if there is a synthesizer. *)
Definition task_ok (s : State) (t : Task) : Prop :=
  match t with
  | Pending _ (sendMessage_k render) => synthesis render = synthesis s
  | Pending _ _ => True
  | Timer render _ _ => synthesis render = synthesis s
  | Speech _ => synthesis s <> None
  end.

Record invariant (c : Component) : Prop := mkInvariant {
  inv_typing : isTyping (state c) = isLoading (state c);
  inv_chat : chat_in_flight c = if isLoading (state c) then 1%nat else 0%nat;
  inv_listening : isListening (state c) = true -> recognition (state c) <> None;
  inv_speaking : isSpeaking (state c) = true -> synthesis (state c) <> None;
  inv_tasks : Forall (task_ok (state c)) (tasks c)
}.

(** ** Sample inputs *)

(** A render in which the user typed " hi ". *)
Definition typed_hi : State := with_inputMessage (lit " hi ") initial_state.

Definition noon : Clock := mkClock 1000 1001 1002 1003.

Definition short_reply : Data :=
  mkData (Some (lit "Hello!")) (Some (3 # 2)%Q) None None.

Definition browser : Env := mkEnv true true.

Definition mounted : Component := mount browser None noon.

(** The component after an event, unchanged if the event cannot occur. *)
Definition after (c : Component) (e : Event) : Component :=
  match step c e with
  | Some (c', _) => c'
  | None => c
  end.

(** The component after the user typed " hi " and pressed Enter. *)
Definition awaiting_reply : Component :=
  after (after mounted (ChangeInput (lit " hi ")))
    (KeyDown (lit "Enter") false noon).

(** ** Statements *)

(** An argument that makes [messageText || ...] take its left side. *)
Definition explicit (messageText : jsfield) : bool :=
  match messageText with Some s => truthy s | None => false end.

(** The updates of [sendMessage] come first and the request last: the
    trace is a batch that issues no request and leaves [isLoading] and
    [isTyping] true, the input empty and the suggestions hidden, followed
    by the POST to the chat endpoint; the state React renders is the one
    after the batch. *)
Definition loading_before_request (s : State) (messageText : jsfield)
  (c : Clock) : Prop :=
  exists batch req,
    sendMessage s messageText c = batch ++ [Await req (sendMessage_k s)]
    /\ endpoint req = "/chat"
    /\ requests batch = []
    /\ In (SetIsLoading true) batch
    /\ isLoading (run s batch) = true
    /\ isTyping (run s batch) = true
    /\ inputMessage (run s batch) = []
    /\ showSuggestions (run s batch) = false
    /\ run s (sendMessage s messageText c) = run s batch.

(** What [sendMessage] does with the trimmed input: it posts exactly that
    text with [stream: false] as its only request and suspends on it; and
    when the request resolves with a textual reply, whatever the state
    then is, the history grows by one assistant message carrying the
    reply and the response's [duration]. *)
Definition posts_input_and_appends_reply (s : State) (messageText : jsfield)
  (c : Clock) : Prop :=
  requests (sendMessage s messageText c)
  = [PostJson "/chat" (trim (inputMessage s)) false]
  /\ spawn (sendMessage s messageText c)
     = [Pending (PostJson "/chat" (trim (inputMessage s)) false)
          (sendMessage_k s)]
  /\ forall (s' : State) (data : Data) (reply : jsstring) (c' : Clock),
       data_content data = Some reply ->
       exists m,
         messages (run s' (sendMessage_resume s (Resolved data) c'))
         = messages s' ++ [m]
         /\ role m = assistant
         /\ content m = Some reply
         /\ duration m = data_duration data
         /\ error m = false.

(** A call that changes no state cell and issues no request. *)
Definition no_op (s : State) (t : list Cmd) : Prop :=
  t = [] /\ run s t = s /\ requests t = [] /\ spawn t = [].

(** The trace sets a timer that will call [speakResponse] on [arg]. *)
Definition schedules_speech (t : list Cmd) (arg : jsfield) : Prop :=
  exists render ms, In (SetTimeout render arg ms) t.

(** A successful upload, in its three stages: the call posts the files as
    its only request; when that request resolves, one assistant message
    made from the response's [message] is appended and the file list is
    requested; when that request resolves, [uploadedFiles] is the list it
    returned (empty if the body has none), no further message is added and
    [isUploading] is reset. *)
Definition upload_succeeds (fs : list File) : Prop :=
  (exists form,
     handleFileUpload (Some fs)
     = [SetIsUploading true;
        Await (PostForm "/upload" form "multipart/form-data")
          handleFileUpload_k]
     /\ map snd form = fs)
  /\ (forall s' data c,
        let t := handleFileUpload_resume (Resolved data) c in
        (exists m,
           messages (run s' t) = messages s' ++ [m]
           /\ role m = assistant
           /\ error m = false
           /\ content m
              = Some (to_string (data_message data)
                      ++ lit ". Kya puchna hai?"))
        /\ uploadedFiles (run s' t) = uploadedFiles s'
        /\ spawn t
           = [Pending (Get "/files")
                (loadUploadedFiles_k FromHandleFileUpload)])
  /\ (forall s'' data,
        let t := loadUploadedFiles_resume FromHandleFileUpload
                   (Resolved data) in
        uploadedFiles (run s'' t) = default [] (data_files data)
        /\ messages (run s'' t) = messages s''
        /\ isUploading (run s'' t) = false
        /\ spawn t = []).

(** The typing indicator follows the chat request: with no chat request
    outstanding [isTyping] is false; a step that turns it on posts to the
    chat endpoint; the step that settles the chat request, resolved or
    rejected, turns it off and leaves no chat request outstanding. *)
Definition typing_tracks_chat (c : Component) : Prop :=
  (quiescent c -> isTyping (state c) = false)
  /\ (isTyping (state c) = true -> chat_in_flight c = 1%nat)
  /\ (forall e c' t,
        step c e = Some (c', t) ->
        isTyping (state c) = false -> isTyping (state c') = true ->
        exists message,
          In (Await (PostJson "/chat" message false)
                (sendMessage_k (state c))) t)
  /\ (forall i o clk req render c' t,
        tasks c !! i = Some (Pending req (sendMessage_k render)) ->
        step c (Settled i o clk) = Some (c', t) ->
        isTyping (state c') = false /\ quiescent c').

(** The voice toggles in a render [s]. *)
Definition voice_toggles_guarded (s : State) : Prop :=
  (recognition s <> None -> isListening s = false ->
   run s (startListening s) = with_isListening true s
   /\ isListening (run s (startListening s)) = true)
  /\ (isListening s = true \/ recognition s = None -> startListening s = [])
  /\ isListening (run s (stopListening s)) = false
  /\ (isListening s = false -> stopListening s = [])
  /\ isSpeaking (run s (stopSpeaking s)) = false
  /\ run (run s (stopSpeaking s)) (stopSpeaking (run s (stopSpeaking s)))
     = run s (stopSpeaking s).

(** ** What is rendered *)

(** The six suggestion chips; the second holds U+00D7. *)
Definition suggestions : list jsstring :=
  [lit "What can you do?";
   lit "What's 25 " ++ [215]%N ++ lit " 17?";
   lit "What time is it?";
   lit "Tell me a joke";
   lit "Help me with math";
   lit "Search for latest news"].

(** [disabled] of the send button. *)
Definition send_disabled (s : State) : bool :=
  negb (truthy (trim (inputMessage s))) || isLoading s || isListening s.

(** The chips are rendered. *)
Definition suggestions_shown (s : State) : bool :=
  showSuggestions s && (length (messages s) <=? 1)%nat.

(** ** Further invariants *)

(** A call of [handleFileUpload] is under way: it waits for its POST or
    for the reload of the file list. *)
Definition is_upload_task (t : Task) : bool :=
  match t with
  | Pending _ handleFileUpload_k => true
  | Pending _ (loadUploadedFiles_k FromHandleFileUpload) => true
  | _ => false
  end.

Definition count_upload (l : list Task) : nat :=
  length (List.filter is_upload_task l).

Definition upload_in_flight (c : Component) : nat := count_upload (tasks c).

Definition welcome_message (u : option User) (stamp : Z) : Message :=
  mkMessage 1 assistant (Some (welcome_text u)) stamp None false.

(** What the history holds: a user message has a text that is not empty
    and no flag; a message flagged as an error is one of the two fixed
    apologies. *)
Definition message_ok (m : Message) : Prop :=
  (role m = user_role ->
   exists txt, content m = Some txt /\ truthy txt = true
               /\ error m = false /\ duration m = None)
  /\ (error m = true ->
      role m = assistant /\ duration m = None
      /\ (content m
          = Some (lit "Sorry, something went wrong. Please try again!")
          \/ content m = Some (lit "File upload failed. Please try again."))).

Definition history_ok (l : list Message) : Prop :=
  (exists u stamp rest, l = welcome_message u stamp :: rest)
  /\ Forall message_ok l.

(** The shape of the three requests. *)
Definition well_formed_request (r : HttpRequest) : Prop :=
  match r with
  | Get url => url = "/files"
  | PostJson url message stream =>
      url = "/chat" /\ stream = false /\ truthy message = true
  | PostForm url form contentType =>
      url = "/upload" /\ contentType = "multipart/form-data"
      /\ form <> [] /\ Forall (fun p => fst p = "files") form
  end.

(** The speech objects the first effect installs. *)
Definition speech_objects (env : Env) (s : State) : Prop :=
  recognition s
  = (if has_recognition env
     then Some (mkRecognition false false (lit "en-US")) else None)
  /\ synthesis s
     = (if has_synthesis env then Some speechSynthesis else None).

(** What a pending timer holds: a reply shorter than 200 code units, to
    be spoken after 500 ms. *)
Definition timer_ok (t : Task) : Prop :=
  match t with
  | Timer render arg ms =>
      ms = 500 /\ exists reply, arg = Some reply /\ (length reply < 200)%nat
  | _ => True
  end.

(** The utterance [speakResponse] builds. *)
Definition utterance_of (arg : jsfield) : Utterance :=
  mkUtterance arg (9 # 10)%Q 1%Q (8 # 10)%Q.

Definition is_speech_cmd (c : Cmd) : bool :=
  match c with
  | SynthesisSpeak _ | SynthesisCancel => true
  | _ => false
  end.

Definition is_speech_task (t : Task) : bool :=
  match t with Speech _ => true | _ => false end.

(** The voice-free component: nothing is being heard or said, and no
    utterance exists. *)
Definition silent (c : Component) : Prop :=
  isSpeaking (state c) = false
  /\ Forall (fun t => is_speech_task t = false) (tasks c).

(** A browser with speech recognition and without speech synthesis, and
    one with neither. *)
Definition silent_browser : Env := mkEnv true false.

Definition plain_browser : Env := mkEnv false false.

(** Two uploads under way, after two drops. *)
Definition two_uploads : Component :=
  after (after mounted (Drop (Some [lit "notes.txt"])))
    (Drop (Some [lit "scan.pdf"])).

(** The reply has arrived and its timer is pending; meanwhile the user
    had the welcome message read out, and it is being spoken. *)
Definition speaking_with_timer : Component :=
  after (after (after awaiting_reply (Settled 1 (Resolved short_reply) noon))
           (ClickSpeak (Some (welcome_text None))))
    (UtteranceStart 2).

(** * Properties *)

(** ** Sending a message, uploading files *)

Lemma run_app s t1 t2 : run s (t1 ++ t2) = run (run s t1) t2.
Proof. apply fold_left_app. Qed.

Lemma or_else_default messageText fallback :
  explicit messageText = false -> or_else messageText fallback = fallback.
Proof. destruct messageText as [[|]|]; simpl; congruence. Qed.

Lemma or_else_truthy messageText fallback :
  truthy fallback = true -> truthy (or_else messageText fallback) = true.
Proof. destruct messageText as [[|]|]; simpl; congruence. Qed.

Lemma or_else_explicit text fallback :
  truthy text = true -> or_else (Some text) fallback = text.
Proof. simpl. now intros ->. Qed.

Lemma truthy_false s : truthy s = false <-> s = [].
Proof. destruct s; simpl; split; congruence. Qed.

(** The guard of [sendMessage] passed: the six commands it executes. *)
Lemma sendMessage_accepts s messageText c :
  truthy (or_else messageText (trim (inputMessage s))) = true ->
  isLoading s = false ->
  sendMessage s messageText c =
    let message := or_else messageText (trim (inputMessage s)) in
    [AppendMessage
       (mkMessage (date_now c) user_role (Some message) (new_date c)
          None false);
     SetInputMessage []; SetIsLoading true; SetIsTyping true;
     SetShowSuggestions false;
     Await (PostJson "/chat" message false) (sendMessage_k s)].
Proof. intros Hm Hl. unfold sendMessage. now rewrite Hm, Hl. Qed.

Lemma sendMessage_rejects s messageText c :
  truthy (or_else messageText (trim (inputMessage s))) = false
  \/ isLoading s = true ->
  sendMessage s messageText c = [].
Proof.
  unfold sendMessage. intros [-> | ->]; [reflexivity |].
  now rewrite orb_true_r.
Qed.

(** With a suggestion as argument the suggestion is what is posted,
    whatever the input field holds. *)
Lemma sendMessage_suggestion s suggestion c :
  truthy suggestion = true -> isLoading s = false ->
  requests (sendMessage s (Some suggestion) c)
  = [PostJson "/chat" suggestion false].
Proof.
  intros Ht Hl. rewrite sendMessage_accepts by (simpl; now rewrite ?Ht).
  simpl. now rewrite Ht.
Qed.

(** C4: when the trimmed input is not empty and [isLoading] is false,
    [sendMessage] (whatever its argument, so also the send button's call)
    sets [isLoading] to true before it calls the backend and, in the same
    batch of updates, sets [isTyping] to true, clears the input and hides
    the suggestions. *)
Theorem sendMessage_sets_loading_before_request s messageText c :
  truthy (trim (inputMessage s)) = true ->
  isLoading s = false ->
  loading_before_request s messageText c.
Proof.
  intros Hin Hl. unfold loading_before_request.
  rewrite sendMessage_accepts by (auto using or_else_truthy).
  cbv zeta.
  eexists [_; _; _; _; _], _. split; [reflexivity |].
  repeat split; simpl; auto.
Qed.

Lemma sendMessage_sets_loading_before_request_witness :
  loading_before_request typed_hi None noon.
Proof.
  apply (sendMessage_sets_loading_before_request typed_hi None noon);
    reflexivity.
Defined.

(** C1 as stated fails when [sendMessage] is given a message: in the
    reachable state where " hi " is typed and the chips are shown, the
    trimmed input is not empty and nothing is awaited, yet a click on a
    chip posts the chip's text and not the trimmed input. *)
Lemma chip_click_posts_chip_not_input :
  let c := after mounted (ChangeInput (lit " hi ")) in
  reachable browser c
  /\ suggestions_shown (state c) = true
  /\ In (lit "Tell me a joke") suggestions
  /\ truthy (trim (inputMessage (state c))) = true
  /\ isLoading (state c) = false
  /\ requests (sendMessage (state c) (Some (lit "Tell me a joke")) noon)
     = [PostJson "/chat" (lit "Tell me a joke") false]
  /\ ~ posts_input_and_appends_reply (state c)
        (Some (lit "Tell me a joke")) noon
  /\ ~ (forall s messageText clk,
          truthy (trim (inputMessage s)) = true ->
          isLoading s = false ->
          posts_input_and_appends_reply s messageText clk).
Proof.
  cbv zeta.
  assert (Hno : ~ posts_input_and_appends_reply
                    (state (after mounted (ChangeInput (lit " hi "))))
                    (Some (lit "Tell me a joke")) noon).
  { intros [H _]. vm_compute in H. discriminate H. }
  split.
  { apply (reach_step browser mounted (ChangeInput (lit " hi ")) _
             [SetInputMessage (lit " hi ")]);
      [apply reach_mount | reflexivity]. }
  split; [reflexivity |]. split; [simpl; tauto |].
  split; [reflexivity |]. split; [reflexivity |].
  split; [reflexivity |]. split; [exact Hno |].
  intros H. apply Hno. apply H; reflexivity.
Qed.

(** C1, amended: in a state whose trimmed input is not empty and with no
    request in flight, [sendMessage] called as the send button and the
    Enter key call it (no message argument, or an empty one) posts exactly
    the trimmed input with [stream: false] to the chat endpoint, and on
    success appends exactly one assistant message whose content is the
    reply and whose duration is the response's duration field. *)
Theorem sendMessage_posts_trimmed_input s messageText c :
  explicit messageText = false ->
  truthy (trim (inputMessage s)) = true ->
  isLoading s = false ->
  posts_input_and_appends_reply s messageText c.
Proof.
  intros He Hin Hl. unfold posts_input_and_appends_reply.
  rewrite sendMessage_accepts
    by (rewrite ?or_else_default by exact He; assumption).
  rewrite or_else_default by exact He.
  split; [reflexivity |]. split; [reflexivity |].
  intros s' data reply c' Hc.
  unfold sendMessage_resume, sendMessage_try. rewrite Hc.
  eexists. split.
  - simpl. destruct (length reply <? 200)%nat; reflexivity.
  - simpl. auto.
Qed.

Lemma sendMessage_posts_trimmed_input_witness :
  posts_input_and_appends_reply typed_hi None noon.
Proof.
  apply (sendMessage_posts_trimmed_input typed_hi None noon); reflexivity.
Defined.

(** C8: [sendMessage] does nothing at all when the trimmed input is empty
    and no message argument is given, or when [isLoading] is true; nor
    does [handleFileUpload] for a null or an empty set of files. *)
Theorem guarded_calls_are_no_ops s messageText c :
  (explicit messageText = false /\ trim (inputMessage s) = [])
  \/ isLoading s = true ->
  no_op s (sendMessage s messageText c)
  /\ no_op s (handleFileUpload None)
  /\ no_op s (handleFileUpload (Some [])).
Proof.
  intros H. split; [| split; repeat split].
  rewrite sendMessage_rejects; [repeat split |].
  destruct H as [[He Ht] | Hl]; [left | now right].
  rewrite or_else_default by exact He. now rewrite Ht.
Qed.

Lemma guarded_calls_are_no_ops_witness :
  no_op (with_inputMessage (lit "  ") initial_state)
    (sendMessage (with_inputMessage (lit "  ") initial_state) None noon)
  /\ no_op (with_isLoading true typed_hi)
       (sendMessage (with_isLoading true typed_hi) (Some (lit "hello")) noon).
Proof.
  split.
  - apply (guarded_calls_are_no_ops
             (with_inputMessage (lit "  ") initial_state) None noon).
    left. split; reflexivity.
  - apply (guarded_calls_are_no_ops (with_isLoading true typed_hi)
             (Some (lit "hello")) noon).
    right. reflexivity.
Defined.

(** C6: [handleDragOver] only sets [isDragging] to true and
    [handleDragLeave] only sets it to false; [handleDrop] sets it to false
    and then does what [handleFileUpload] does with the dropped files, and
    leaves the history, the input, [isLoading], [isTyping] and the file
    list as they were. *)
Theorem drag_handlers_frame s files :
  (run s handleDragOver = with_isDragging true s
   /\ spawn handleDragOver = [])
  /\ (run s handleDragLeave = with_isDragging false s
      /\ spawn handleDragLeave = [])
  /\ (handleDrop files
      = [PreventDefault; SetIsDragging false] ++ handleFileUpload files
      /\ spawn (handleDrop files) = spawn (handleFileUpload files)
      /\ isDragging (run s (handleDrop files)) = false
      /\ messages (run s (handleDrop files)) = messages s
      /\ inputMessage (run s (handleDrop files)) = inputMessage s
      /\ isLoading (run s (handleDrop files)) = isLoading s
      /\ isTyping (run s (handleDrop files)) = isTyping s
      /\ uploadedFiles (run s (handleDrop files)) = uploadedFiles s).
Proof.
  repeat split; unfold handleDrop, handleFileUpload;
    destruct files as [[| f fs] |]; reflexivity.
Qed.

(** C9: after a reply is received, [speakResponse] is scheduled for it if
    and only if the reply is shorter than 200 code units; a longer reply
    is appended to the history and neither a timer nor an utterance is
    started for it. *)
Theorem auto_speak_iff_short render data reply c :
  data_content data = Some reply ->
  let t := sendMessage_resume render (Resolved data) c in
  (schedules_speech t (Some reply) <-> (length reply < 200)%nat)
  /\ ((length reply < 200)%nat -> spawn t = [Timer render (Some reply) 500])
  /\ ((200 <= length reply)%nat ->
      spawn t = []
      /\ forall s', exists m,
           messages (run s' t) = messages s' ++ [m]
           /\ content m = Some reply).
Proof.
  intros Hc t. subst t.
  unfold sendMessage_resume, sendMessage_try, schedules_speech.
  rewrite Hc. simpl.
  destruct (Nat.ltb_spec (length reply) 200) as [Hlt | Hge].
  - split; [| split].
    + split; [auto | intros _; exists render, 500; simpl; auto].
    + reflexivity.
    + lia.
  - split; [| split].
    + split; [| lia].
      intros (r & ms & [H | [H | [H | []]]]); discriminate.
    + lia.
    + intros _. split; [reflexivity |].
      intros s'. eexists. split; reflexivity.
Qed.

Lemma auto_speak_iff_short_witness :
  spawn (sendMessage_resume typed_hi (Resolved short_reply) noon)
  = [Timer typed_hi (Some (lit "Hello!")) 500].
Proof.
  apply (auto_speak_iff_short typed_hi short_reply (lit "Hello!") noon
           eq_refl).
  vm_compute. lia.
Defined.

(** C10: when the chat request fails, [sendMessage] appends one message
    flagged as an error, with the text below, keeps the messages stored
    before it and resets [isLoading] and [isTyping]; when the upload fails,
    [handleFileUpload] appends one such message with its own text, keeps
    the earlier messages and resets [isUploading]. *)
Theorem failure_appends_one_error_message s' render c :
  (let t := sendMessage_resume render Rejected c in
   exists m,
     messages (run s' t) = messages s' ++ [m]
     /\ role m = assistant
     /\ error m = true
     /\ content m
        = Some (lit "Sorry, something went wrong. Please try again!")
     /\ isLoading (run s' t) = false
     /\ isTyping (run s' t) = false
     /\ spawn t = [])
  /\ (let t := handleFileUpload_resume Rejected c in
      exists m,
        messages (run s' t) = messages s' ++ [m]
        /\ role m = assistant
        /\ error m = true
        /\ content m = Some (lit "File upload failed. Please try again.")
        /\ isUploading (run s' t) = false
        /\ spawn t = []).
Proof.
  split; cbv zeta; eexists; repeat split.
Qed.

(** C3: for a set of files that is not empty, a call of [handleFileUpload]
    whose requests succeed appends exactly one assistant message, built
    from the confirmation text of the upload response, and afterwards
    [uploadedFiles] is the file list the backend returned. *)
Theorem upload_appends_confirmation_and_loads_files fs :
  fs <> [] -> upload_succeeds fs.
Proof.
  intros Hne. unfold upload_succeeds. split; [| split].
  - destruct fs as [| f fs]; [congruence |].
    eexists. split; [reflexivity |].
    simpl. f_equal. rewrite map_map. simpl. apply map_id.
  - intros s' data c. cbv zeta. split; [| split; reflexivity].
    eexists. repeat split.
  - intros s'' data. cbv zeta. repeat split.
Qed.

Lemma upload_appends_confirmation_and_loads_files_witness :
  upload_succeeds [lit "notes.txt"; lit "scan.pdf"].
Proof.
  apply (upload_appends_confirmation_and_loads_files
           [lit "notes.txt"; lit "scan.pdf"]).
  discriminate.
Defined.

(** ** The endpoints *)

Lemma sendMessage_requests s messageText c :
  Forall known_endpoint (requests (sendMessage s messageText c)).
Proof.
  unfold sendMessage. destruct (negb _ || _); simpl; [constructor |].
  constructor; [now left | constructor].
Qed.

Lemma handleFileUpload_requests files :
  Forall known_endpoint (requests (handleFileUpload files)).
Proof.
  destruct files as [[| f fs] |]; simpl; try constructor.
  - right. now left.
  - constructor.
Qed.

Lemma resume_requests k o c : Forall known_endpoint (requests (resume k o c)).
Proof.
  destruct k as [render | | caller]; simpl.
  - unfold sendMessage_resume, sendMessage_try.
    destruct o as [data |]; [| constructor].
    destruct (data_content data) as [reply |]; simpl; [| constructor].
    destruct (length reply <? 200)%nat; constructor.
  - destruct o; simpl; constructor; [| constructor].
    right. now right.
  - destruct o, caller; simpl; constructor.
Qed.

Lemma speakResponse_requests s arg : requests (speakResponse s arg) = [].
Proof.
  unfold speakResponse.
  destruct (synthesis s); [destruct (negb _) |]; reflexivity.
Qed.

Lemma requests_app t1 t2 : requests (t1 ++ t2) = requests t1 ++ requests t2.
Proof. apply omap_app. Qed.

Lemma user_event_requests s e t :
  on_user_event s e = Some t -> Forall known_endpoint (requests t).
Proof.
  destruct e; simpl; intros [= <-];
    try (apply sendMessage_requests);
    try (rewrite speakResponse_requests);
    try (constructor; fail).
  - unfold handleKeyDown. destruct (_ && _); [| constructor].
    apply sendMessage_requests.
  - apply handleFileUpload_requests.
  - unfold handleFileInputChange. rewrite requests_app, app_nil_r.
    apply handleFileUpload_requests.
  - unfold stopListening, startListening.
    destruct (isListening s), (recognition s); constructor.
  - unfold stopSpeaking. destruct (synthesis s); constructor.
Qed.

Lemma step_requests c e c' t :
  step c e = Some (c', t) -> Forall known_endpoint (requests t).
Proof.
  unfold step. intros H.
  destruct e; cbn [on_recognition_event] in H;
    try (destruct (on_user_event (state c) _) eqn:E; [| discriminate];
         injection H as <- <-; eapply user_event_requests; exact E);
    repeat (match type of H with
            | context [match ?x with _ => _ end] => destruct x; try discriminate
            end);
    injection H as <- <-;
    try apply resume_requests; try constructor.
  apply Forall_forall. intros r. now rewrite speakResponse_requests.
Qed.

Lemma issues_files : issues (Get "/files").
Proof. apply (issues_on_mount _ browser None noon). simpl. auto. Qed.

Lemma issues_chat : issues (PostJson "/chat" (lit "Tell me a joke") false).
Proof.
  eapply (issues_on_event _ browser mounted
            (ClickSuggestion (lit "Tell me a joke") noon)).
  - apply reach_mount.
  - reflexivity.
  - simpl. auto.
Qed.

Lemma issues_upload :
  issues (PostForm "/upload" [("files"%string, lit "notes.txt")]
            "multipart/form-data").
Proof.
  eapply (issues_on_event _ browser mounted (Drop (Some [lit "notes.txt"]))).
  - apply reach_mount.
  - reflexivity.
  - simpl. auto.
Qed.

(** C2 as stated fails: no two endpoints cover the requests the
    component issues, since it posts to "/chat" and to "/upload" and also
    gets "/files". *)
Lemma two_endpoints_do_not_suffice :
  ~ exists e1 e2 : string,
      forall r, issues r -> endpoint r = e1 \/ endpoint r = e2.
Proof.
  intros (e1 & e2 & H).
  pose proof (H _ issues_files) as Hf.
  pose proof (H _ issues_chat) as Hc.
  pose proof (H _ issues_upload) as Hu.
  simpl in Hf, Hc, Hu.
  destruct Hf as [<- | <-], Hc as [Hc | Hc], Hu as [Hu | Hu];
    congruence.
Qed.

(** C2, amended: the component calls three endpoints and no other: every
    request it issues goes to "/chat", "/upload" or "/files", and each of
    the three is called. *)
Theorem exactly_three_endpoints :
  (forall r, issues r -> known_endpoint r)
  /\ issues (Get "/files")
  /\ (exists message, issues (PostJson "/chat" message false))
  /\ (exists form, issues (PostForm "/upload" form "multipart/form-data")).
Proof.
  split; [| split; [| split]].
  - intros r [env u c Hin | env c e c' t _ Hstep Hin].
    + simpl in Hin. unfold mount_effects, speech_effect in Hin.
      destruct (has_recognition env), (has_synthesis env);
        simpl in Hin; destruct Hin as [<- | []]; right; now right.
    + apply step_requests in Hstep.
      rewrite Forall_forall in Hstep. apply Hstep.
      now apply list_elem_of_In.
  - exact issues_files.
  - eexists. exact issues_chat.
  - eexists. exact issues_upload.
Qed.

(** ** The invariant holds in every reachable state *)

Lemma count_chat_app l1 l2 :
  count_chat (l1 ++ l2) = (count_chat l1 + count_chat l2)%nat.
Proof. unfold count_chat. now rewrite List.filter_app, length_app. Qed.

Lemma count_chat_single x :
  count_chat [x] = if is_chat_task x then 1%nat else 0%nat.
Proof. unfold count_chat. simpl. now destruct (is_chat_task x). Qed.

Lemma count_chat_delete (l : list Task) i x :
  l !! i = Some x ->
  count_chat l
  = (count_chat (delete i l) + if is_chat_task x then 1 else 0)%nat.
Proof.
  revert i. induction l as [| y l IH]; intros [| i] H; try discriminate.
  - injection H as ->. unfold count_chat. simpl.
    destruct (is_chat_task x); simpl; lia.
  - simpl in H. specialize (IH _ H). unfold count_chat in *. simpl.
    destruct (is_chat_task y); simpl; lia.
Qed.

Lemma task_ok_same_synthesis s s' t :
  synthesis s' = synthesis s -> task_ok s t -> task_ok s' t.
Proof.
  intros E. destruct t as [req [render | | caller] | render arg ms | u];
    simpl; rewrite ?E; auto.
Qed.

Lemma Forall_task_ok_same_synthesis s s' l :
  synthesis s' = synthesis s -> Forall (task_ok s) l -> Forall (task_ok s') l.
Proof.
  intros E H. eapply Forall_impl; [exact H |].
  intros t. now apply task_ok_same_synthesis.
Qed.

Lemma mount_invariant env u c : invariant (mount env u c).
Proof.
  unfold mount, mount_effects, speech_effect.
  destruct (has_recognition env), (has_synthesis env);
    constructor; simpl; try discriminate; auto; repeat constructor.
Qed.

(** The cases of [H : step c e = Some (c', t)], once [e] is known. *)
Ltac step_cases H :=
  simpl in H;
  repeat match type of H with
         | context [match ?x with _ => _ end] =>
             destruct x eqn:?; try discriminate
         end;
  injection H as <- <-.

Ltac unfold_handlers :=
  unfold handleKeyDown, handleFileInputChange, handleFileUpload,
    sendMessage, startListening, stopListening, speakResponse,
    stopSpeaking, resume, sendMessage_resume, sendMessage_try,
    handleFileUpload_resume, loadUploadedFiles_resume,
    try_catch_finally in *.

(** Case analysis on the guards of the handler in the goal, innermost
    first. *)
Ltac split_guards :=
  repeat match goal with
         | |- context [match ?x with _ => _ end] =>
             lazymatch x with
             | context [match _ with _ => _ end] => fail
             | _ => destruct x eqn:?
             end
         end;
  simpl.

Ltac split_guards_in H :=
  repeat match type of H with
         | context [match ?x with _ => _ end] =>
             lazymatch x with
             | context [match _ with _ => _ end] => fail
             | _ => destruct x eqn:?
             end
         end;
  simpl in H.

(** Closing the five parts of [invariant] once the handler is unfolded. *)
Ltac invariant_parts :=
  constructor; unfold chat_in_flight; simpl;
  rewrite ?app_nil_r, ?count_chat_app, ?count_chat_single; simpl;
  repeat match goal with
         | H : _ || _ = false |- _ => apply orb_false_elim in H as [? ?]
         end;
  try match goal with
      | H : count_chat _ = if ?b then _ else _ |- _ => destruct b eqn:?
      end;
  try (first [ assumption | discriminate | lia | congruence
             | intuition congruence ]).

Ltac kept_tasks :=
  try apply Forall_app_2;
  try (eapply Forall_task_ok_same_synthesis; [reflexivity |]);
  try apply Forall_delete; try assumption;
  try (repeat constructor; simpl; first [ assumption | congruence ]).

Lemma step_invariant c e c' t :
  invariant c -> step c e = Some (c', t) -> invariant c'.
Proof.
  intros [Hty Hch Hli Hsp Hta] H.
  destruct c as [s pool]. unfold chat_in_flight in Hch. simpl in *.
  unfold step in H.
  destruct e; step_cases H; unfold dispatch; simpl.
  all: try match goal with
       | L : ?l !! ?i = Some ?x |- _ =>
           pose proof (Forall_lookup_1 _ _ _ _ Hta L) as Hx;
           pose proof (count_chat_delete _ _ _ L) as Hd;
           simpl in Hx, Hd
       end.
  all: unfold_handlers; split_guards; invariant_parts; kept_tasks.
Qed.

Lemma reachable_invariant env c : reachable env c -> invariant c.
Proof.
  induction 1 as [u c | c e c' t _ IH Hstep].
  - apply mount_invariant.
  - exact (step_invariant _ _ _ _ IH Hstep).
Qed.

(** [isTyping] rises only in a step that starts a chat request. *)
Lemma typing_rises_with_chat c e c' t :
  step c e = Some (c', t) ->
  isTyping (state c) = false -> isTyping (state c') = true ->
  exists message,
    In (Await (PostJson "/chat" message false) (sendMessage_k (state c))) t.
Proof.
  intros H Hf Ht. destruct c as [s pool]. simpl in *.
  unfold step in H.
  destruct e; step_cases H; unfold dispatch in Ht; simpl in Ht.
  all: unfold_handlers; split_guards_in Ht; simpl in *.
  all: try congruence.
  all: eexists; simpl; eauto 8.
Qed.

(** Settling a chat request puts [isTyping] back to false, whatever the
    outcome and whatever the state. *)
Lemma typing_falls_with_chat c i o clk req render c' t :
  tasks c !! i = Some (Pending req (sendMessage_k render)) ->
  step c (Settled i o clk) = Some (c', t) ->
  isTyping (state c') = false /\ isLoading (state c') = false.
Proof.
  intros L H. unfold step in H. rewrite L in H. injection H as <- <-.
  unfold dispatch, resume, sendMessage_resume, try_catch_finally. simpl.
  destruct (sendMessage_try render o clk); rewrite !run_app; simpl; auto.
Qed.

(** C7: in every reachable state the typing indicator is on only while a
    chat request is outstanding: it is turned on only by starting a chat
    request, turned off when that request settles, with success or with
    failure, and so it is off in every quiescent state. *)
Theorem typing_only_during_chat env c :
  reachable env c -> typing_tracks_chat c.
Proof.
  intros Hr. pose proof (reachable_invariant _ _ Hr) as [Hty Hch _ _ _].
  unfold typing_tracks_chat, quiescent.
  split; [| split; [| split]].
  - intros Hq. rewrite Hq in Hch. rewrite Hty.
    destruct (isLoading (state c)); [discriminate | reflexivity].
  - intros Ht. rewrite Hty in Ht. now rewrite Ht in Hch.
  - intros e c' t. apply typing_rises_with_chat.
  - intros i o clk req render c' t L Hstep.
    destruct (typing_falls_with_chat _ _ _ _ _ _ _ _ L Hstep) as [Ht Hl].
    split; [exact Ht |].
    assert (Hr' : reachable env c') by (eapply reach_step; eauto).
    pose proof (reachable_invariant _ _ Hr') as [_ Hch' _ _ _].
    now rewrite Hl in Hch'.
Qed.

Lemma reachable_after env c e : reachable env c -> reachable env (after c e).
Proof.
  intros Hr. unfold after.
  destruct (step c e) as [[c' t] |] eqn:E; [| exact Hr].
  exact (reach_step env c e c' t Hr E).
Qed.

Lemma awaiting_reply_reachable : reachable browser awaiting_reply.
Proof. do 2 apply reachable_after. apply reach_mount. Qed.

Lemma typing_only_during_chat_witness : typing_tracks_chat awaiting_reply.
Proof.
  apply (typing_only_during_chat browser awaiting_reply).
  do 2 apply reachable_after. apply reach_mount.
Defined.

(** C5: in every reachable state, [startListening] takes [isListening]
    from false to true and does nothing when the component is listening or
    has no recognition instance; [stopListening] leaves [isListening]
    false and does nothing when the component is not listening;
    [stopSpeaking] leaves [isSpeaking] false, and calling it twice gives
    the state that calling it once gives. *)
Theorem voice_toggles env c :
  reachable env c -> voice_toggles_guarded (state c).
Proof.
  intros Hr. pose proof (reachable_invariant _ _ Hr) as [_ _ Hli Hsp _].
  unfold voice_toggles_guarded, startListening, stopListening, stopSpeaking.
  destruct (state c) as [ms im lo ty su li sp re sy up dr ul]. simpl in *.
  repeat split.
  - destruct re; [| congruence]. now subst li.
  - destruct re; [| congruence]. now subst li.
  - intros [-> | ->]; [destruct re |]; reflexivity.
  - destruct re, li; simpl; try reflexivity. exfalso. now apply Hli.
  - intros ->. now destruct re.
  - destruct sy, sp; simpl; try reflexivity. exfalso. now apply Hsp.
  - destruct sy; reflexivity.
Qed.

Lemma voice_toggles_witness : voice_toggles_guarded (state awaiting_reply).
Proof.
  apply (voice_toggles browser awaiting_reply).
  do 2 apply reachable_after. apply reach_mount.
Defined.

(** ** The history *)

(** Every step appends to the history, except the effect on [user], which
    replaces it by the welcome message. *)
Lemma messages_grow c e c' t :
  step c e = Some (c', t) ->
  (exists u clk, e = UserChanged u clk)
  \/ exists suffix,
       messages (state c') = messages (state c) ++ suffix
       /\ (length suffix <= 2)%nat.
Proof.
  intros H. destruct c as [s pool]. unfold step in H.
  destruct e; try (left; eauto; fail); right;
    step_cases H; unfold dispatch; simpl.
  all: unfold_handlers; split_guards.
  all: rewrite <- ?app_assoc; simpl.
  all: first [ eexists; split; [reflexivity | simpl; lia]
             | exists []; rewrite app_nil_r; split; [reflexivity | simpl; lia] ].
Qed.

(** ** Responses outside the contract *)

(** When the reload of the file list fails after an upload, the list is
    left as it was, the failure is only logged and no message is added. *)
Lemma reload_failure_keeps_files s :
  let t := loadUploadedFiles_resume FromHandleFileUpload Rejected in
  t = [ConsoleError; SetIsUploading false]
  /\ uploadedFiles (run s t) = uploadedFiles s
  /\ messages (run s t) = messages s.
Proof. repeat split. Qed.

(** A resolved chat response without [content]: the assistant message
    was queued before [length] threw, and the error message follows. *)
Lemma reply_without_content s render data c :
  data_content data = None ->
  exists m,
    messages (run s (sendMessage_resume render (Resolved data) c))
    = messages s ++ [m; chat_errorMessage c]
    /\ content m = None.
Proof.
  intros H. unfold sendMessage_resume, sendMessage_try. rewrite H.
  eexists. simpl. rewrite <- app_assoc. split; reflexivity.
Qed.

(** ** A session *)

Example trim_strips_both_ends :
  trim [32; 9; 97; 32; 98; 10; 8232]%N = [97; 32; 98]%N.
Proof. reflexivity. Qed.

Example trim_of_blank : trim (lit "   ") = [].
Proof. reflexivity. Qed.

(** After mounting, typing " hi " and pressing Enter, two requests are
    outstanding: the first load of the file list and the chat request. *)
Example awaiting_reply_tasks :
  map (fun t => match t with Pending req _ => Some req | _ => None end)
    (tasks awaiting_reply)
  = [Some (Get "/files"); Some (PostJson "/chat" (lit "hi") false)]
  /\ isTyping (state awaiting_reply) = true
  /\ inputMessage (state awaiting_reply) = [].
Proof. repeat split. Qed.

(** The reply arrives: three messages (welcome, user, assistant), the
    indicator is off, and the timer that will speak the reply is the only
    new task. *)
Example reply_arrives :
  let c := after awaiting_reply (Settled 1 (Resolved short_reply) noon) in
  map content (messages (state c))
  = [Some (welcome_text None); Some (lit "hi"); Some (lit "Hello!")]
  /\ isTyping (state c) = false
  /\ isLoading (state c) = false
  /\ length (tasks c) = 2%nat
  /\ tasks c !! 1%nat
     = Some (Timer (state (after mounted (ChangeInput (lit " hi "))))
               (Some (lit "Hello!")) 500).
Proof. repeat split. Qed.

(** The timer fires in a browser with a synthesizer: the reply is handed
    to it, and [isSpeaking] follows the utterance's events. *)
Example reply_is_spoken :
  let c := after awaiting_reply (Settled 1 (Resolved short_reply) noon) in
  let c1 := after c (TimerFired 1) in
  let c2 := after c1 (UtteranceStart 1) in
  let c3 := after c2 (UtteranceEnd 1) in
  (exists u, tasks c1 !! 1%nat = Some (Speech u)
             /\ text u = Some (lit "Hello!"))
  /\ isSpeaking (state c2) = true
  /\ isSpeaking (state c3) = false
  /\ length (tasks c3) = 1%nat.
Proof. cbv zeta. split; [eexists; split; reflexivity | repeat split]. Qed.

(** * Further properties *)

(** ** Trimming *)

Lemma trimStart_nil s :
  trimStart s = [] <-> forallb is_js_space s = true.
Proof.
  induction s as [| a s IH]; simpl; [tauto |].
  destruct (is_js_space a); simpl; [exact IH |].
  split; discriminate.
Qed.

Lemma trimStart_split s :
  exists pre, s = pre ++ trimStart s /\ forallb is_js_space pre = true.
Proof.
  induction s as [| a s (pre & E & Hp)]; [exists []; auto |].
  simpl. destruct (is_js_space a) eqn:Ha.
  - exists (a :: pre). simpl. rewrite Ha, Hp. split; [congruence | auto].
  - exists []. auto.
Qed.

Lemma trimStart_head s a r : trimStart s = a :: r -> is_js_space a = false.
Proof.
  induction s as [| b s IH]; simpl; [discriminate |].
  destruct (is_js_space b) eqn:Hb; [exact IH |].
  now intros [= <- _].
Qed.

Lemma trimStart_keeps_last l a :
  is_js_space a = false -> exists u, trimStart (l ++ [a]) = u ++ [a].
Proof.
  intros Ha. induction l as [| b l (u & E)]; simpl.
  - rewrite Ha. now exists [].
  - destruct (is_js_space b); [eauto |]. now exists (b :: l).
Qed.

Lemma forallb_rev_space l :
  forallb is_js_space (rev l) = forallb is_js_space l.
Proof.
  induction l as [| a l IH]; [reflexivity |].
  simpl. rewrite forallb_app, IH. simpl. now rewrite andb_true_r, andb_comm.
Qed.

Lemma trimEnd_split s :
  exists post, s = trimEnd s ++ post /\ forallb is_js_space post = true.
Proof.
  destruct (trimStart_split (rev s)) as (pre & E & Hp).
  exists (rev pre). unfold trimEnd. rewrite forallb_rev_space.
  split; [| exact Hp].
  rewrite <- rev_app_distr, <- E. now rewrite rev_involutive.
Qed.

Lemma trim_split s :
  exists pre post,
    s = pre ++ trim s ++ post
    /\ forallb is_js_space pre = true /\ forallb is_js_space post = true.
Proof.
  destruct (trimStart_split s) as (pre & E & Hp).
  destruct (trimEnd_split (trimStart s)) as (post & E' & Hq).
  exists pre, post. unfold trim. now rewrite <- E', <- E.
Qed.

Lemma trim_nil s : trim s = [] <-> forallb is_js_space s = true.
Proof.
  split.
  - intros H. destruct (trim_split s) as (pre & post & E & Hp & Hq).
    rewrite H in E. rewrite E, forallb_app. simpl. now rewrite Hp, Hq.
  - intros H. apply trimStart_nil in H. unfold trim. now rewrite H.
Qed.

Lemma trim_first s a r : trim s = a :: r -> is_js_space a = false.
Proof.
  unfold trim, trimEnd. destruct (trimStart s) as [| b t] eqn:E.
  - discriminate.
  - pose proof (trimStart_head _ _ _ E) as Hb. simpl.
    destruct (trimStart_keeps_last (rev t) b Hb) as (u & ->).
    rewrite rev_app_distr. simpl. now intros [= <- _].
Qed.

Lemma trim_last s r a : trim s = r ++ [a] -> is_js_space a = false.
Proof.
  unfold trim, trimEnd. intros H.
  apply (f_equal (@rev _)) in H. rewrite rev_involutive, rev_app_distr in H.
  simpl in H. exact (trimStart_head _ _ _ H).
Qed.

(** ** The send button, the input and the chips *)

Lemma sendMessage_nil_iff s messageText c :
  sendMessage s messageText c = []
  <-> truthy (or_else messageText (trim (inputMessage s))) = false
      \/ isLoading s = true.
Proof.
  split; [| apply sendMessage_rejects].
  unfold sendMessage.
  destruct (truthy _); [| now left].
  destruct (isLoading s); [now right | discriminate].
Qed.

(** X1: whenever the send button is enabled, clicking it is accepted: the
    call posts the trimmed input to the chat endpoint as its one
    request. *)
Theorem enabled_send_button_sends s c :
  send_disabled s = false ->
  sendMessage s None c <> []
  /\ requests (sendMessage s None c)
     = [PostJson "/chat" (trim (inputMessage s)) false].
Proof.
  unfold send_disabled. intros H.
  apply orb_false_elim in H as [H _].
  apply orb_false_elim in H as [Ht Hl].
  apply negb_false_iff in Ht.
  rewrite sendMessage_accepts by (simpl; assumption).
  split; [discriminate | reflexivity].
Qed.

Lemma enabled_send_button_sends_witness :
  requests (sendMessage typed_hi None noon)
  = [PostJson "/chat" (lit "hi") false].
Proof.
  apply (enabled_send_button_sends typed_hi noon). reflexivity.
Defined.

(** X2: a call of [sendMessage] without argument is dropped exactly when
    the input consists of white space only (or is empty) or a chat request
    is being awaited. *)
Theorem blank_input_is_never_sent s c :
  sendMessage s None c = []
  <-> forallb is_js_space (inputMessage s) = true \/ isLoading s = true.
Proof.
  rewrite sendMessage_nil_iff. simpl.
  rewrite truthy_false, trim_nil. reflexivity.
Qed.

(** X3: the text [sendMessage] posts for the input field is the input
    with a white-space prefix and a white-space suffix removed: it is not
    empty and neither starts nor ends with white space. *)
Theorem posted_text_is_input_without_margins s c url message stream :
  In (PostJson url message stream) (requests (sendMessage s None c)) ->
  (exists pre post,
     inputMessage s = pre ++ message ++ post
     /\ forallb is_js_space pre = true
     /\ forallb is_js_space post = true)
  /\ message <> []
  /\ (forall a r, message = a :: r -> is_js_space a = false)
  /\ (forall r a, message = r ++ [a] -> is_js_space a = false).
Proof.
  intros Hin.
  destruct (sendMessage s None c) eqn:E; [destruct Hin |].
  assert (Hn : sendMessage s None c <> []) by (rewrite E; discriminate).
  rewrite sendMessage_nil_iff in Hn. simpl in Hn.
  assert (Ht : truthy (trim (inputMessage s)) = true)
    by (destruct (truthy _); tauto).
  assert (Hl : isLoading s = false)
    by (destruct (isLoading s); tauto).
  rewrite <- E, sendMessage_accepts in Hin by (simpl; assumption).
  simpl in Hin. destruct Hin as [[= <- <- <-] | []].
  split; [apply trim_split |]. split.
  - intros H. now rewrite H in Ht.
  - split; [apply trim_first | apply trim_last].
Qed.

Lemma posted_text_is_input_without_margins_witness :
  exists pre post,
    inputMessage typed_hi = pre ++ lit "hi" ++ post
    /\ forallb is_js_space pre = true
    /\ forallb is_js_space post = true.
Proof.
  apply (posted_text_is_input_without_margins typed_hi noon "/chat"
           (lit "hi") false).
  simpl. auto.
Defined.

Lemma suggestions_truthy sg : In sg suggestions -> truthy sg = true.
Proof.
  unfold suggestions. simpl.
  intros [<- | [<- | [<- | [<- | [<- | [<- | []]]]]]]; reflexivity.
Qed.

(** X4: clicking a suggestion chip while no chat request is awaited posts
    the chip's text as it is, whatever the input field holds, and the
    draft in the input field is cleared. *)
Theorem suggestion_click_discards_draft s sg c :
  In sg suggestions ->
  isLoading s = false ->
  let t := sendMessage s (Some sg) c in
  requests t = [PostJson "/chat" sg false]
  /\ inputMessage (run s t) = []
  /\ exists m, messages (run s t) = messages s ++ [m]
               /\ role m = user_role /\ content m = Some sg.
Proof.
  intros Hin Hl t. subst t.
  pose proof (suggestions_truthy _ Hin) as Ht.
  rewrite sendMessage_accepts by (simpl; now rewrite ?Ht).
  simpl. rewrite Ht. repeat split. eexists. repeat split.
Qed.

Lemma suggestion_click_discards_draft_witness :
  requests (sendMessage typed_hi (Some (lit "Tell me a joke")) noon)
  = [PostJson "/chat" (lit "Tell me a joke") false]
  /\ inputMessage
       (run typed_hi (sendMessage typed_hi (Some (lit "Tell me a joke")) noon))
     = [].
Proof.
  destruct (suggestion_click_discards_draft typed_hi (lit "Tell me a joke")
              noon) as (H1 & H2 & _).
  - simpl. auto.
  - reflexivity.
  - split; [exact H1 | exact H2].
Defined.

(** ** The speech objects *)

Lemma step_keeps_speech_objects c e c' t :
  step c e = Some (c', t) ->
  recognition (state c') = recognition (state c)
  /\ synthesis (state c') = synthesis (state c).
Proof.
  intros H. destruct c as [s pool]. unfold step in H.
  destruct e; step_cases H; unfold dispatch; simpl.
  all: unfold_handlers; split_guards; auto.
Qed.

Lemma reachable_speech_objects env c :
  reachable env c -> speech_objects env (state c).
Proof.
  induction 1 as [u c | c e c' t _ IH Hstep].
  - unfold speech_objects, mount, mount_effects, speech_effect.
    destruct (has_recognition env), (has_synthesis env); split; reflexivity.
  - destruct (step_keeps_speech_objects _ _ _ _ Hstep) as [Hr Hs].
    unfold speech_objects. rewrite Hr, Hs. exact IH.
Qed.

(** X5: the recognition instance and the synthesizer are installed by the
    mount effect and never replaced or dropped afterwards: in every
    reachable state the recognition instance, if the browser offers one,
    is the one configured as non-continuous, without interim results,
    for en-US, and the synthesizer is the browser's, if it has one. *)
Theorem speech_objects_fixed_after_mount env c :
  reachable env c ->
  speech_objects env (state c)
  /\ forall e c' t,
       step c e = Some (c', t) ->
       recognition (state c') = recognition (state c)
       /\ synthesis (state c') = synthesis (state c).
Proof.
  intros Hr. split; [now apply reachable_speech_objects |].
  intros e c' t. apply step_keeps_speech_objects.
Qed.

Lemma speech_objects_fixed_after_mount_witness :
  speech_objects browser (state awaiting_reply).
Proof.
  apply (speech_objects_fixed_after_mount browser awaiting_reply).
  do 2 apply reachable_after. apply reach_mount.
Defined.

Lemma no_speech_cmds_app t1 t2 :
  forallb (fun c => negb (is_speech_cmd c)) (t1 ++ t2)
  = forallb (fun c => negb (is_speech_cmd c)) t1
    && forallb (fun c => negb (is_speech_cmd c)) t2.
Proof. apply forallb_app. Qed.

(** X6: in a browser without speech synthesis the component never speaks:
    in every reachable state [isSpeaking] is false and no utterance
    exists, and no step cancels or starts speech or creates an
    utterance. *)
Theorem no_synthesis_no_speech env c :
  has_synthesis env = false ->
  reachable env c ->
  silent c
  /\ forall e c' t,
       step c e = Some (c', t) ->
       forallb (fun x => negb (is_speech_cmd x)) t = true.
Proof.
  intros Hno Hr.
  destruct (reachable_speech_objects _ _ Hr) as [_ Hsy]. rewrite Hno in Hsy.
  destruct (reachable_invariant _ _ Hr) as [_ _ _ Hsp Hta].
  assert (Htasks : Forall (fun t => is_speech_task t = false) (tasks c)).
  { eapply Forall_impl; [exact Hta |].
    intros [req k | render arg ms | u]; simpl; auto. congruence. }
  split.
  - split; [| exact Htasks].
    destruct (isSpeaking (state c)); [| reflexivity].
    exfalso. now apply Hsp.
  - intros e c' t H. destruct c as [s pool]. simpl in *. unfold step in H.
    destruct e; step_cases H.
    all: try match goal with
         | L : ?l !! ?i = Some ?x |- _ =>
             pose proof (Forall_lookup_1 _ _ _ _ Hta L) as Hx; simpl in Hx
         end.
    all: unfold handleDrop; unfold_handlers; rewrite ?Hsy; try rewrite Hx, Hsy.
    all: split_guards; reflexivity.
Qed.

Lemma no_synthesis_no_speech_witness :
  silent
    (after (after (mount silent_browser None noon) (ChangeInput (lit " hi ")))
       (KeyDown (lit "Enter") false noon)).
Proof.
  apply (no_synthesis_no_speech silent_browser); [reflexivity |].
  do 2 apply reachable_after. apply reach_mount.
Defined.

(** ** The microphone button *)

Lemma dispatch_nothing c : dispatch c [] (tasks c) = c.
Proof. destruct c as [s pool]. unfold dispatch. simpl. now rewrite app_nil_r. Qed.

(** X7: in a browser without speech recognition the component never
    listens: [isListening] is false in every reachable state, the
    microphone button changes nothing, and no recognition callback can
    run. *)
Theorem no_recognition_no_listening env c :
  has_recognition env = false ->
  reachable env c ->
  isListening (state c) = false
  /\ step c ClickMic = Some (c, [])
  /\ (forall transcript, step c (RecognitionResult transcript) = None)
  /\ step c RecognitionError = None
  /\ step c RecognitionEnd = None.
Proof.
  intros Hno Hr.
  destruct (reachable_speech_objects _ _ Hr) as [Hre _]. rewrite Hno in Hre.
  destruct (reachable_invariant _ _ Hr) as [_ _ Hli _ _].
  assert (Hl : isListening (state c) = false).
  { destruct (isListening (state c)); [| reflexivity].
    exfalso. now apply Hli. }
  split; [exact Hl |].
  unfold step. simpl. rewrite Hl, Hre.
  unfold startListening. rewrite Hre, dispatch_nothing. auto.
Qed.

Lemma no_recognition_no_listening_witness :
  step (mount plain_browser None noon) ClickMic
  = Some (mount plain_browser None noon, []).
Proof.
  apply (no_recognition_no_listening plain_browser); [reflexivity |].
  apply reach_mount.
Defined.

(** X8: with a recognition instance, the microphone button toggles: one
    click negates [isListening], starting recognition when it was off and
    stopping it when it was on, and touches no other state cell; a second
    click restores the state. *)
Theorem mic_button_toggles env c :
  has_recognition env = true ->
  reachable env c ->
  let c1 := after c ClickMic in
  state c1 = with_isListening (negb (isListening (state c))) (state c)
  /\ tasks c1 = tasks c
  /\ step c ClickMic
     = Some (c1, if isListening (state c)
                 then [RecognitionStop; SetIsListening false]
                 else [SetIsListening true; RecognitionStart])
  /\ after c1 ClickMic = c.
Proof.
  intros Hyes Hr c1. subst c1.
  destruct (reachable_speech_objects _ _ Hr) as [Hre _]. rewrite Hyes in Hre.
  destruct c as [s pool]. simpl in Hre.
  unfold after, step. simpl.
  unfold stopListening, startListening. rewrite Hre.
  destruct s as [ms im lo ty su li sp re sy up dr ul]. simpl in *.
  destruct li; simpl; unfold dispatch; simpl; rewrite !app_nil_r;
    unfold stopListening, startListening; simpl; rewrite Hre; simpl;
    rewrite ?app_nil_r; repeat split.
Qed.

Lemma mic_button_toggles_witness :
  after (after mounted ClickMic) ClickMic = mounted
  /\ isListening (state (after mounted ClickMic)) = true.
Proof.
  destruct (mic_button_toggles browser mounted eq_refl
              (reach_mount browser None noon)) as (H1 & _ & _ & H4).
  split; [exact H4 |]. now rewrite H1.
Defined.

(** ** One chat request at a time *)

Lemma no_chat_while_loading c e c' t :
  isLoading (state c) = true ->
  step c e = Some (c', t) ->
  Forall (fun r => endpoint r <> "/chat") (requests t).
Proof.
  intros Hl H. destruct c as [s pool]. simpl in Hl. unfold step in H.
  destruct e; step_cases H.
  all: unfold handleDrop; unfold_handlers; rewrite ?Hl, ?orb_true_r.
  all: split_guards; repeat constructor; simpl; discriminate.
Qed.

(** X9: at most one chat request is outstanding in any reachable state,
    [isLoading] is true exactly while there is one, and while it is true
    no event makes the component post to the chat endpoint again. *)
Theorem single_chat_request env c :
  reachable env c ->
  (chat_in_flight c <= 1)%nat
  /\ (isLoading (state c) = true <-> chat_in_flight c = 1%nat)
  /\ forall e c' t,
       chat_in_flight c = 1%nat ->
       step c e = Some (c', t) ->
       Forall (fun r => endpoint r <> "/chat") (requests t).
Proof.
  intros Hr. destruct (reachable_invariant _ _ Hr) as [_ Hch _ _ _].
  destruct (isLoading (state c)) eqn:Hl; rewrite Hch.
  - split; [lia |]. split; [tauto |].
    intros e c' t _. now apply no_chat_while_loading.
  - split; [lia |]. split; [split; discriminate |]. discriminate.
Qed.

Lemma single_chat_request_witness :
  chat_in_flight awaiting_reply = 1%nat
  /\ step awaiting_reply (ClickSuggestion (lit "Tell me a joke") noon)
     = Some (awaiting_reply, []).
Proof.
  destruct (single_chat_request browser awaiting_reply) as (_ & H & _).
  - do 2 apply reachable_after. apply reach_mount.
  - split; [now apply H | reflexivity].
Defined.

(** ** The history *)

Lemma history_ok_app l l' :
  history_ok l -> Forall message_ok l' -> history_ok (l ++ l').
Proof.
  intros [(u & stamp & rest & ->) Hall] H'. split.
  - exists u, stamp, (rest ++ l'). reflexivity.
  - now apply Forall_app_2.
Qed.

Lemma welcome_ok u stamp : history_ok [welcome_message u stamp].
Proof.
  split; [now exists u, stamp, [] |].
  repeat constructor; simpl; discriminate.
Qed.

(** The guard of [sendMessage], read as facts. *)
Ltac guard_facts :=
  repeat match goal with
         | H : _ || _ = false |- _ => apply orb_false_elim in H as [? ?]
         end;
  repeat match goal with
         | H : negb _ = false |- _ => apply negb_false_iff in H
         end.

Ltac new_messages_ok :=
  repeat first
    [ apply List.Forall_nil
    | apply List.Forall_cons;
      [ split; simpl; intros Hrole;
        [ try discriminate; eexists; repeat split; eauto
        | try discriminate; repeat split; auto ]
      | ] ].

Lemma step_history c e c' t :
  history_ok (messages (state c)) ->
  step c e = Some (c', t) ->
  history_ok (messages (state c')).
Proof.
  intros Hh H. destruct c as [s pool]. simpl in Hh. unfold step in H.
  destruct e; step_cases H; unfold dispatch; simpl.
  all: unfold_handlers; split_guards; guard_facts.
  all: rewrite <- ?app_assoc; simpl.
  all: first [ assumption
             | apply welcome_ok
             | apply history_ok_app; [assumption | new_messages_ok] ].
Qed.

Lemma reachable_history env c :
  reachable env c -> history_ok (messages (state c)).
Proof.
  induction 1 as [u clk | c e c' t _ IH Hstep].
  - unfold mount, mount_effects, speech_effect.
    destruct (has_recognition env), (has_synthesis env); apply welcome_ok.
  - exact (step_history _ _ _ _ IH Hstep).
Qed.

(** X10: the history is empty only in the first committed render, before
    the mount effects ran; from the mount effects on it starts with the
    welcome message.  In every rendered state every user message in it
    has a text that is not empty, and every message flagged as an error
    is an assistant message carrying one of the two fixed apologies. *)
Theorem history_well_formed env c :
  rendered env c ->
  Forall message_ok (messages (state c))
  /\ ((c = first_render /\ messages (state c) = [])
      \/ exists u stamp rest,
           messages (state c) = welcome_message u stamp :: rest).
Proof.
  intros [| c' Hr].
  - split; [constructor | left; split; reflexivity].
  - destruct (reachable_history _ _ Hr) as [Hw Hall]. auto.
Qed.

Lemma history_well_formed_witness :
  messages (state first_render) = []
  /\ exists u stamp rest,
       messages (state awaiting_reply) = welcome_message u stamp :: rest.
Proof.
  split; [reflexivity |].
  destruct (history_well_formed browser awaiting_reply) as [_ [[H _] | H]].
  - apply rendered_later. do 2 apply reachable_after. apply reach_mount.
  - discriminate H.
  - exact H.
Defined.

Lemma step_suggestions c e c' t :
  step c e = Some (c', t) ->
  showSuggestions (state c') = true ->
  showSuggestions (state c) = true
  /\ (Forall (fun m => role m = assistant) (messages (state c)) ->
      Forall (fun m => role m = assistant) (messages (state c'))).
Proof.
  intros H. destruct c as [s pool]. unfold step in H.
  destruct e; step_cases H; unfold dispatch; simpl.
  all: unfold_handlers; split_guards; try discriminate.
  all: intros Hs; split; [exact Hs |]; intros Ha.
  all: rewrite <- ?app_assoc; simpl.
  all: first [ assumption
             | apply Forall_app_2; [assumption |]; repeat constructor
             | repeat constructor ].
Qed.

(** X11: the suggestion chips, once hidden, are never shown again, and
    while [showSuggestions] is still true no user message has entered the
    history: every message in it is the assistant's. *)
Theorem suggestions_only_before_first_send env c :
  reachable env c ->
  (showSuggestions (state c) = true ->
   Forall (fun m => role m = assistant) (messages (state c)))
  /\ forall e c' t,
       step c e = Some (c', t) ->
       showSuggestions (state c) = false ->
       showSuggestions (state c') = false.
Proof.
  intros Hr. split.
  - induction Hr as [u clk | c e c' t _ IH Hstep].
    + intros _. unfold mount, mount_effects, speech_effect.
      destruct (has_recognition env), (has_synthesis env);
        repeat constructor.
    + intros Hs. destruct (step_suggestions _ _ _ _ Hstep Hs) as [Hs0 Hk].
      auto.
  - intros e c' t Hstep Hf.
    destruct (showSuggestions (state c')) eqn:Hs; [| reflexivity].
    destruct (step_suggestions _ _ _ _ Hstep Hs) as [Hs0 _]. congruence.
Qed.

Lemma suggestions_only_before_first_send_witness :
  showSuggestions (state awaiting_reply) = false
  /\ showSuggestions
       (state (after awaiting_reply (Settled 1 (Resolved short_reply) noon)))
     = false.
Proof.
  split; [reflexivity |].
  destruct (suggestions_only_before_first_send browser awaiting_reply)
    as [_ H].
  - do 2 apply reachable_after. apply reach_mount.
  - eapply (H (Settled 1 (Resolved short_reply) noon)); reflexivity.
Defined.

(** X26: the suggestion chips are rendered only over an empty history,
    which is the first committed render, or over a history that consists
    of the welcome message alone. *)
Theorem chips_only_over_welcome env c :
  rendered env c ->
  suggestions_shown (state c) = true ->
  (c = first_render /\ messages (state c) = [])
  \/ exists u stamp, messages (state c) = [welcome_message u stamp].
Proof.
  intros [| c' Hr] Hs; [left; split; reflexivity | right].
  unfold suggestions_shown in Hs.
  apply andb_true_iff in Hs as [_ Hlen]. apply Nat.leb_le in Hlen.
  destruct (reachable_history _ _ Hr) as [(u & stamp & rest & E) _].
  exists u, stamp. rewrite E in *. simpl in Hlen.
  destruct rest; [reflexivity | simpl in Hlen; lia].
Qed.

Lemma chips_only_over_welcome_witness :
  suggestions_shown (state first_render) = true
  /\ messages (state first_render) = []
  /\ exists u stamp, messages (state mounted) = [welcome_message u stamp].
Proof.
  split; [reflexivity |]. split; [reflexivity |].
  destruct (chips_only_over_welcome browser first_render
              (rendered_first browser) eq_refl) as [_ | (u & stamp & H)];
    [| discriminate H].
  destruct (chips_only_over_welcome browser mounted
              (rendered_later browser mounted (reach_mount browser None noon))
              eq_refl) as [[H _] | H];
    [discriminate H | exact H].
Defined.

(** ** The upload flag *)

Lemma count_upload_app l1 l2 :
  count_upload (l1 ++ l2) = (count_upload l1 + count_upload l2)%nat.
Proof. unfold count_upload. now rewrite List.filter_app, length_app. Qed.

Lemma count_upload_single x :
  count_upload [x] = if is_upload_task x then 1%nat else 0%nat.
Proof. unfold count_upload. simpl. now destruct (is_upload_task x). Qed.

Lemma count_upload_delete (l : list Task) i x :
  l !! i = Some x ->
  count_upload l
  = (count_upload (delete i l) + if is_upload_task x then 1 else 0)%nat.
Proof.
  revert i. induction l as [| y l IH]; intros [| i] H; try discriminate.
  - injection H as ->. unfold count_upload. simpl.
    destruct (is_upload_task x); simpl; lia.
  - simpl in H. specialize (IH _ H). unfold count_upload in *. simpl.
    destruct (is_upload_task y); simpl; lia.
Qed.

Lemma step_upload_flag c e c' t :
  (isUploading (state c) = true -> (1 <= upload_in_flight c)%nat) ->
  step c e = Some (c', t) ->
  isUploading (state c') = true -> (1 <= upload_in_flight c')%nat.
Proof.
  intros Hu H. destruct c as [s pool]. unfold upload_in_flight in *.
  simpl in Hu. unfold step in H.
  destruct e; step_cases H; unfold dispatch; simpl.
  all: try match goal with
       | L : ?l !! ?i = Some ?x |- _ =>
           pose proof (count_upload_delete _ _ _ L) as Hd; simpl in Hd
       end.
  all: unfold_handlers; split_guards.
  all: rewrite ?app_nil_r, ?count_upload_app, ?count_upload_single; simpl.
  all: try discriminate.
  all: intros Hup; try specialize (Hu Hup); lia.
Qed.

(** X12: [isUploading] is true only while a call of [handleFileUpload] is
    under way: in every reachable state with [isUploading] true some
    upload still waits for its POST or for the reload of the file
    list. *)
Theorem uploading_flag_implies_upload env c :
  reachable env c ->
  isUploading (state c) = true -> (1 <= upload_in_flight c)%nat.
Proof.
  induction 1 as [u clk | c e c' t _ IH Hstep].
  - unfold mount, mount_effects, speech_effect.
    destruct (has_recognition env), (has_synthesis env); discriminate.
  - exact (step_upload_flag _ _ _ _ IH Hstep).
Qed.

Lemma uploading_flag_implies_upload_witness :
  (1 <= upload_in_flight (after mounted (Drop (Some [lit "notes.txt"]))))%nat.
Proof.
  apply (uploading_flag_implies_upload browser).
  - apply reachable_after. apply reach_mount.
  - reflexivity.
Defined.

(** X13: the converse fails, because [handleFileUpload] has no guard and
    every upload resets the flag on its own: when one of two uploads
    under way fails, [isUploading] becomes false although the other is
    still under way. *)
Theorem upload_flag_drops_while_uploading c i j req req' k clk c' t :
  tasks c !! i = Some (Pending req handleFileUpload_k) ->
  tasks c !! j = Some (Pending req' k) ->
  is_upload_task (Pending req' k) = true ->
  i <> j ->
  step c (Settled i Rejected clk) = Some (c', t) ->
  isUploading (state c') = false /\ (1 <= upload_in_flight c')%nat.
Proof.
  intros Li Lj Hup Hij H. unfold step in H. rewrite Li in H.
  injection H as <- <-. split; [reflexivity |].
  unfold upload_in_flight, dispatch. simpl. rewrite app_nil_r.
  assert (Hin : Pending req' k ∈ delete i (tasks c)).
  { destruct (decide (j < i)%nat) as [Hlt | Hge].
    - apply list_elem_of_lookup. exists j.
      now rewrite list_lookup_delete_lt.
    - apply list_elem_of_lookup. exists (pred j).
      rewrite list_lookup_delete_ge by lia.
      replace (S (pred j)) with j by lia. exact Lj. }
  apply list_elem_of_In in Hin.
  assert (Hf : In (Pending req' k)
                 (List.filter is_upload_task (delete i (tasks c))))
    by (apply List.filter_In; auto).
  unfold count_upload.
  destruct (List.filter is_upload_task (delete i (tasks c)));
    [destruct Hf | simpl; lia].
Qed.

Lemma upload_flag_drops_while_uploading_witness :
  upload_in_flight two_uploads = 2%nat
  /\ isUploading (state (after two_uploads (Settled 1 Rejected noon))) = false
  /\ (1 <= upload_in_flight (after two_uploads (Settled 1 Rejected noon)))%nat.
Proof.
  split; [reflexivity |].
  eapply (upload_flag_drops_while_uploading two_uploads 1%nat 2%nat
           (PostForm "/upload" [("files"%string, lit "notes.txt")]
              "multipart/form-data")
           (PostForm "/upload" [("files"%string, lit "scan.pdf")]
              "multipart/form-data")
           handleFileUpload_k noon);
    [reflexivity | reflexivity | reflexivity | lia | reflexivity].
Defined.

(** ** The file list *)



(** ** The requests *)

Lemma handler_requests_well_formed c e c' t :
  step c e = Some (c', t) ->
  Forall well_formed_request (requests t) /\ (length (requests t) <= 1)%nat.
Proof.
  intros H. destruct c as [s pool]. unfold step in H.
  destruct e; step_cases H.
  all: unfold handleDrop; unfold_handlers; split_guards; guard_facts.
  all: split; [| simpl; lia].
  all: repeat first [ apply List.Forall_nil | apply List.Forall_cons ].
  all: simpl; repeat split; auto; try discriminate.
  all: repeat first [ apply List.Forall_nil
                    | apply List.Forall_cons; [reflexivity |] ].
  all: first [ destruct l; [discriminate | simpl; discriminate]
             | rewrite List.Forall_map; simpl; apply Forall_forall; auto ].
Qed.

(** X15: every request the component issues has one of three shapes: a
    GET of "/files"; a POST to "/chat" of a message that is not empty,
    with [stream: false]; or a POST to "/upload" of a multipart form with
    at least one entry, all under the key "files".  No step issues more
    than one request. *)
Theorem requests_well_formed r :
  issues r ->
  well_formed_request r
  /\ forall c e c' t,
       step c e = Some (c', t) -> (length (requests t) <= 1)%nat.
Proof.
  intros Hi. split.
  - destruct Hi as [env u c Hin | env c e c' t _ Hstep Hin].
    + unfold mount_effects, speech_effect in Hin.
      destruct (has_recognition env), (has_synthesis env);
        simpl in Hin; destruct Hin as [<- | []]; reflexivity.
    + destruct (handler_requests_well_formed _ _ _ _ Hstep) as [Hall _].
      rewrite List.Forall_forall in Hall. now apply Hall.
  - intros c e c' t Hstep.
    now destruct (handler_requests_well_formed _ _ _ _ Hstep).
Qed.

Lemma requests_well_formed_witness :
  well_formed_request (PostJson "/chat" (lit "Tell me a joke") false).
Proof.
  apply (requests_well_formed (PostJson "/chat" (lit "Tell me a joke") false)).
  eapply (issues_on_event _ browser mounted
            (ClickSuggestion (lit "Tell me a joke") noon)).
  - apply reach_mount.
  - reflexivity.
  - simpl. auto.
Defined.

(** ** Speaking *)

(** X16: every utterance the component starts comes from [speakResponse]:
    the step cancels the synthesizer's queue first, speaks one utterance
    at rate 0.9, pitch 1 and volume 0.8, and changes no state cell
    ([isSpeaking] follows the utterance's own events). *)
Theorem utterances_follow_a_cancel c e c' t u :
  step c e = Some (c', t) ->
  In (SynthesisSpeak u) t ->
  t = [SynthesisCancel; SynthesisSpeak u]
  /\ u = utterance_of (text u)
  /\ state c' = state c
  /\ ((exists arg, e = ClickSpeak arg) \/ (exists i, e = TimerFired i)).
Proof.
  intros H Hin. destruct c as [s pool]. unfold step in H.
  destruct e; step_cases H; unfold dispatch; simpl.
  all: unfold handleDrop in *; unfold_handlers.
  all: repeat match type of Hin with
         | context [match ?x with _ => _ end] =>
             lazymatch x with
             | context [match _ with _ => _ end] => fail
             | _ => destruct x eqn:?
             end
         end.
  all: simpl in Hin; repeat (destruct Hin as [Hin | Hin]); try discriminate;
    try contradiction.
  all: injection Hin as <-; simpl; repeat split; eauto.
Qed.

Lemma utterances_follow_a_cancel_witness :
  state (after mounted (ClickSpeak (Some (lit "Hello!")))) = state mounted.
Proof.
  destruct (utterances_follow_a_cancel mounted
              (ClickSpeak (Some (lit "Hello!")))
              (after mounted (ClickSpeak (Some (lit "Hello!"))))
              [SynthesisCancel;
               SynthesisSpeak (utterance_of (Some (lit "Hello!")))]
              (utterance_of (Some (lit "Hello!"))))
    as (_ & _ & H & _).
  - reflexivity.
  - simpl. auto.
  - exact H.
Defined.

Lemma step_timers c e c' t :
  Forall timer_ok (tasks c) ->
  step c e = Some (c', t) ->
  Forall timer_ok (tasks c').
Proof.
  intros Hk H. destruct c as [s pool]. simpl in Hk. unfold step in H.
  destruct e; step_cases H; unfold dispatch; simpl.
  all: unfold_handlers; split_guards.
  all: rewrite ?app_nil_r; try apply Forall_app_2; try apply Forall_delete;
    try assumption.
  all: repeat first [ apply List.Forall_nil | apply List.Forall_cons ];
    simpl; auto.
  all: split; [reflexivity |]; eexists; split; [reflexivity |].
  all: now apply Nat.ltb_lt.
Qed.

Lemma reachable_timers env c : reachable env c -> Forall timer_ok (tasks c).
Proof.
  induction 1 as [u clk | c e c' t _ IH Hstep].
  - unfold mount, mount_effects, speech_effect.
    destruct (has_recognition env), (has_synthesis env);
      repeat constructor.
  - exact (step_timers _ _ _ _ IH Hstep).
Qed.

(** X17: a pending auto-speak timer of a reachable state holds a reply
    shorter than 200 code units and a delay of 500 ms.  When it fires,
    whether the reply is spoken is decided by [isSpeaking] of the render
    in which the message was sent, not by the current [isSpeaking]: if
    that render was silent and there is a synthesizer, current speech is
    cancelled and the reply is spoken; if it was speaking, nothing is
    said. *)
Theorem auto_speak_decided_at_send_time env c i render arg ms :
  reachable env c ->
  tasks c !! i = Some (Timer render arg ms) ->
  ms = 500
  /\ (exists reply, arg = Some reply /\ (length reply < 200)%nat)
  /\ step c (TimerFired i)
     = Some (dispatch c (speakResponse render arg) (delete i (tasks c)),
             match synthesis (state c) with
             | Some _ =>
                 if isSpeaking render then []
                 else [SynthesisCancel; SynthesisSpeak (utterance_of arg)]
             | None => []
             end).
Proof.
  intros Hr L.
  pose proof (Forall_lookup_1 _ _ _ _ (reachable_timers _ _ Hr) L) as Hk.
  destruct (reachable_invariant _ _ Hr) as [_ _ _ _ Hta].
  pose proof (Forall_lookup_1 _ _ _ _ Hta L) as Hx. simpl in Hk, Hx.
  destruct Hk as [-> Hreply]. split; [reflexivity |]. split; [exact Hreply |].
  unfold step. rewrite L. cbv zeta. do 2 f_equal.
  unfold speakResponse. rewrite Hx.
  destruct (synthesis (state c)); [| reflexivity].
  now destruct (isSpeaking render).
Qed.

Lemma auto_speak_decided_at_send_time_witness :
  isSpeaking (state speaking_with_timer) = true
  /\ exists c',
       step speaking_with_timer (TimerFired 1)
       = Some (c', [SynthesisCancel;
                    SynthesisSpeak (utterance_of (Some (lit "Hello!")))]).
Proof.
  split; [reflexivity |].
  destruct (auto_speak_decided_at_send_time browser speaking_with_timer
              1%nat (state (after mounted (ChangeInput (lit " hi "))))
              (Some (lit "Hello!")) 500) as (_ & _ & H).
  - do 3 apply reachable_after. do 2 apply reachable_after. apply reach_mount.
  - reflexivity.
  - eexists. exact H.
Defined.

(** ** Round trips *)

Lemma lookup_last_spawned (pool : list Task) x :
  (pool ++ [x]) !! length pool = Some x.
Proof. now apply list_lookup_middle. Qed.

Lemma delete_last_spawned (pool : list Task) x :
  delete (length pool) (pool ++ [x]) = pool.
Proof. rewrite delete_middle. apply app_nil_r. Qed.

Lemma after_settled c i o clk req k :
  tasks c !! i = Some (Pending req k) ->
  after c (Settled i o clk)
  = dispatch c (resume k o clk) (delete i (tasks c)).
Proof. intros L. unfold after, step. now rewrite L. Qed.

(** The task a handler has just started is the last one; settling it
    at once resumes the handler in the state the handler left. *)
Lemma after_dispatch_settled c t keep req k o clk :
  spawn t = [Pending req k] ->
  after (dispatch c t keep) (Settled (length keep) o clk)
  = dispatch (mkComponent (run (state c) t) keep) (resume k o clk) keep.
Proof.
  intros E. rewrite (after_settled _ _ _ _ req k).
  - unfold dispatch. simpl. rewrite E. now rewrite delete_last_spawned.
  - unfold dispatch. simpl. rewrite E. apply lookup_last_spawned.
Qed.

(** X18: a send followed by its reply.  From any state with a non-blank
    input and no chat request awaited, clicking send and then receiving
    the reply before anything else happens leaves the history extended by
    the user message and the assistant message, in this order, the input
    empty, the suggestions hidden, both flags false, and the tasks as
    before plus the speech timer if the reply is shorter than 200. *)
Theorem send_then_reply c clk clk' data reply :
  truthy (trim (inputMessage (state c))) = true ->
  isLoading (state c) = false ->
  data_content data = Some reply ->
  let c1 := after c (ClickSend clk) in
  let c2 := after c1 (Settled (length (tasks c)) (Resolved data) clk') in
  messages (state c2)
  = messages (state c)
    ++ [mkMessage (date_now clk) user_role
          (Some (trim (inputMessage (state c)))) (new_date clk) None false;
        mkMessage (date_now clk' + 1) assistant (Some reply)
          (new_date clk') (data_duration data) false]
  /\ inputMessage (state c2) = []
  /\ showSuggestions (state c2) = false
  /\ isLoading (state c2) = false
  /\ isTyping (state c2) = false
  /\ uploadedFiles (state c2) = uploadedFiles (state c)
  /\ tasks c2
     = tasks c
       ++ (if (length reply <? 200)%nat
           then [Timer (state c) (Some reply) 500] else []).
Proof.
  intros Ht Hl Hc c1 c2. subst c1 c2.
  change (after c (ClickSend clk))
    with (dispatch c (sendMessage (state c) None clk) (tasks c)).
  rewrite (after_dispatch_settled _ _ _
             (PostJson "/chat" (trim (inputMessage (state c))) false)
             (sendMessage_k (state c)))
    by now rewrite sendMessage_accepts by (simpl; assumption).
  rewrite sendMessage_accepts by (simpl; assumption).
  unfold resume, sendMessage_resume, sendMessage_try. rewrite Hc.
  unfold dispatch. simpl.
  destruct (length reply <? 200)%nat; simpl; rewrite <- ?app_assoc;
    rewrite ?app_nil_r; repeat split.
Qed.

Lemma send_then_reply_witness :
  map content
    (messages
       (state
          (after (after (after mounted (ChangeInput (lit " hi ")))
                    (ClickSend noon))
             (Settled 1 (Resolved short_reply) noon))))
  = [Some (welcome_text None); Some (lit "hi"); Some (lit "Hello!")].
Proof.
  destruct (send_then_reply (after mounted (ChangeInput (lit " hi ")))
              noon noon short_reply (lit "Hello!") eq_refl eq_refl eq_refl)
    as (H & _).
  cbv zeta in H. change (length (tasks (after mounted (ChangeInput (lit " hi ")))))
    with 1%nat in H.
  rewrite H. reflexivity.
Defined.

(** X19: an upload followed by its two responses.  Dropping a set of
    files that is not empty, then receiving the upload's response and the
    file list's response before anything else happens, leaves the history
    extended by the one confirmation message, [uploadedFiles] equal to the
    list received, [isUploading] and [isDragging] false, and the tasks as
    before. *)
Theorem drop_then_responses c fs clk confirmation listing :
  fs <> [] ->
  let n := length (tasks c) in
  let c1 := after c (Drop (Some fs)) in
  let c2 := after c1 (Settled n (Resolved confirmation) clk) in
  let c3 := after c2 (Settled n (Resolved listing) clk) in
  isUploading (state c1) = true
  /\ messages (state c3)
     = messages (state c)
       ++ [mkMessage (date_now clk) assistant
             (Some (to_string (data_message confirmation)
                    ++ lit ". Kya puchna hai?"))
             (new_date clk) None false]
  /\ uploadedFiles (state c3) = default [] (data_files listing)
  /\ isUploading (state c3) = false
  /\ isDragging (state c3) = false
  /\ tasks c3 = tasks c.
Proof.
  intros Hne n c1 c2 c3. subst n c1 c2 c3.
  destruct fs as [| f fs]; [congruence |].
  change (after c (Drop (Some (f :: fs))))
    with (dispatch c (handleDrop (Some (f :: fs))) (tasks c)).
  split; [reflexivity |].
  rewrite (after_dispatch_settled _ _ _
             (PostForm "/upload"
                (map (fun x => ("files"%string, x)) (f :: fs))
                "multipart/form-data")
             handleFileUpload_k) by reflexivity.
  rewrite (after_dispatch_settled _ _ _ (Get "/files")
             (loadUploadedFiles_k FromHandleFileUpload)) by reflexivity.
  unfold dispatch. simpl. rewrite ?app_nil_r. repeat split.
Qed.

Lemma drop_then_responses_witness :
  uploadedFiles
    (state
       (after
          (after (after mounted (Drop (Some [lit "notes.txt"])))
             (Settled 1 (Resolved (mkData None None (Some (lit "1 file")) None))
                noon))
          (Settled 1
             (Resolved (mkData None None None (Some [lit "notes.txt"])))
             noon)))
  = [lit "notes.txt"].
Proof.
  destruct (drop_then_responses mounted [lit "notes.txt"] noon
              (mkData None None (Some (lit "1 file")) None)
              (mkData None None None (Some [lit "notes.txt"])))
    as (_ & _ & H & _).
  - discriminate.
  - exact H.
Defined.

(** ** Edge cases *)

(** X20: a chat response that resolves without a [content] is handled as
    a failure after the fact: the assistant message with no content was
    already built, from the clock as read in the [try] block, and queued
    when reading its length threw, so the history grows by that message
    and then by the apology, built from the clock as read again in the
    [catch] block; no speech is scheduled and both flags are reset. *)
Theorem missing_content_adds_two_messages s render data c :
  data_content data = None ->
  let t := sendMessage_resume render (Resolved data) c in
  messages (run s t)
  = messages s
    ++ [mkMessage (date_now c + 1) assistant None (new_date c)
          (data_duration data) false;
        mkMessage (catch_date_now c + 1) assistant
          (Some (lit "Sorry, something went wrong. Please try again!"))
          (catch_new_date c) None true]
  /\ spawn t = []
  /\ isLoading (run s t) = false
  /\ isTyping (run s t) = false.
Proof.
  intros H t. subst t. unfold sendMessage_resume, sendMessage_try.
  rewrite H. simpl. rewrite <- app_assoc. repeat split.
Qed.

Lemma missing_content_adds_two_messages_witness :
  map id
    (messages
       (run typed_hi
          (sendMessage_resume typed_hi
             (Resolved (mkData None None None None)) noon)))
  = [1001; 1003].
Proof.
  destruct (missing_content_adds_two_messages typed_hi typed_hi
              (mkData None None None None) noon eq_refl) as (H & _).
  rewrite H. reflexivity.
Defined.

(** X21: the Enter key without Shift does what the send button does,
    after [preventDefault]; any other key, and Enter with Shift, changes
    nothing and issues nothing. *)
Theorem enter_key_is_send_button c key shiftKey clk :
  step c (KeyDown key shiftKey clk)
  = if bool_decide (key = lit "Enter") && negb shiftKey
    then match step c (ClickSend clk) with
         | Some (c', t) => Some (c', PreventDefault :: t)
         | None => None
         end
    else Some (c, []).
Proof.
  unfold step. simpl. unfold handleKeyDown.
  destruct (bool_decide (key = lit "Enter") && negb shiftKey).
  - reflexivity.
  - now rewrite dispatch_nothing.
Qed.

(** X22: a recognized phrase is put into the input field and listening
    ends; nothing is sent and the history stays as it was.  The send
    button is then enabled exactly when the phrase is not blank and no
    chat request is awaited. *)
Theorem dictation_fills_the_input c transcript c' t :
  step c (RecognitionResult transcript) = Some (c', t) ->
  state c' = with_isListening false (with_inputMessage transcript (state c))
  /\ tasks c' = tasks c
  /\ requests t = []
  /\ send_disabled (state c')
     = negb (truthy (trim transcript)) || isLoading (state c).
Proof.
  unfold step. simpl. destruct (recognition (state c)); [| discriminate].
  intros [= <- <-]. unfold dispatch, send_disabled. simpl.
  rewrite app_nil_r, orb_false_r. repeat split.
Qed.

Lemma dictation_fills_the_input_witness :
  send_disabled (state (after mounted (RecognitionResult (lit "hello"))))
  = false.
Proof.
  destruct (dictation_fills_the_input mounted (lit "hello")
              (after mounted (RecognitionResult (lit "hello")))
              [SetInputMessage (lit "hello"); SetIsListening false] eq_refl)
    as (_ & _ & _ & H).
  rewrite H. reflexivity.
Defined.

(** X23: a failed load of the file list is silent: the failure is logged
    to the console, no message is shown, no request is issued, and the
    history and the file list stay as they were; the load made on mount
    changes no state cell at all. *)
Theorem failed_file_list_load_is_silent c i req caller clk c' t :
  tasks c !! i = Some (Pending req (loadUploadedFiles_k caller)) ->
  step c (Settled i Rejected clk) = Some (c', t) ->
  In ConsoleError t
  /\ requests t = []
  /\ messages (state c') = messages (state c)
  /\ uploadedFiles (state c') = uploadedFiles (state c)
  /\ (caller = FromMount -> state c' = state c).
Proof.
  intros L H. unfold step in H. rewrite L in H. injection H as <- <-.
  unfold dispatch. destruct caller; simpl; repeat split; auto; discriminate.
Qed.

Lemma failed_file_list_load_is_silent_witness :
  state (after mounted (Settled 0 Rejected noon)) = state mounted.
Proof.
  destruct (failed_file_list_load_is_silent mounted 0%nat (Get "/files")
              FromMount noon (after mounted (Settled 0 Rejected noon))
              [ConsoleError] eq_refl eq_refl) as (_ & _ & _ & _ & H).
  now apply H.
Defined.

(** X24: when the user changes while a reply is awaited, the history is
    replaced by the welcome message and the chat request stays
    outstanding; the reply that then arrives is appended to the fresh
    history, which so holds the welcome message and the reply without the
    question, and [isLoading] and [isTyping] are reset. *)
Theorem user_change_drops_the_question c i req render u clk data reply clk' :
  tasks c !! i = Some (Pending req (sendMessage_k render)) ->
  data_content data = Some reply ->
  let c1 := after c (UserChanged u clk) in
  let c2 := after c1 (Settled i (Resolved data) clk') in
  messages (state c1) = [welcome_message u (new_date clk)]
  /\ tasks c1 = tasks c
  /\ messages (state c2)
     = [welcome_message u (new_date clk);
        mkMessage (date_now clk' + 1) assistant (Some reply)
          (new_date clk') (data_duration data) false]
  /\ isLoading (state c2) = false
  /\ isTyping (state c2) = false.
Proof.
  intros L Hc c1 c2. subst c1 c2.
  assert (E1 : after c (UserChanged u clk)
               = mkComponent
                   (with_messages [welcome_message u (new_date clk)] (state c))
                   (tasks c)).
  { unfold after, step, dispatch. simpl. now rewrite app_nil_r. }
  rewrite E1. split; [reflexivity |]. split; [reflexivity |].
  rewrite (after_settled _ _ _ _ req (sendMessage_k render)) by exact L.
  unfold resume, sendMessage_resume, sendMessage_try. rewrite Hc.
  unfold dispatch. simpl.
  destruct (length reply <? 200)%nat; repeat split.
Qed.

Lemma user_change_drops_the_question_witness :
  map content
    (messages
       (state
          (after (after awaiting_reply
                    (UserChanged (Some (mkUser (Some (lit "asha")))) noon))
             (Settled 1 (Resolved short_reply) noon))))
  = [Some (welcome_text (Some (mkUser (Some (lit "asha")))));
     Some (lit "Hello!")].
Proof.
  destruct (user_change_drops_the_question awaiting_reply 1%nat
              (PostJson "/chat" (lit "hi") false)
              (state (after mounted (ChangeInput (lit " hi "))))
              (Some (mkUser (Some (lit "asha")))) noon short_reply
              (lit "Hello!") noon eq_refl eq_refl) as (_ & _ & H & _).
  rewrite H. reflexivity.
Defined.

(** X25: choosing files in the picker does what dropping them does, apart
    from the dragging flag, which only the drop resets: both start the
    same upload, and the picker's input element is reset afterwards even
    when no file was chosen. *)
Theorem picker_uploads_like_drop c files :
  with_isDragging false (state (after c (FileInputChange files)))
  = state (after c (Drop files))
  /\ tasks (after c (FileInputChange files)) = tasks (after c (Drop files))
  /\ exists t,
       step c (FileInputChange files) = Some (after c (FileInputChange files), t)
       /\ requests t = requests (handleDrop files)
       /\ last t = Some ResetFileInput.
Proof.
  unfold after, step. simpl. unfold dispatch, handleFileInputChange.
  destruct files as [[| f fs] |]; simpl; repeat split;
    eexists; repeat split.
Qed.
